(** * QuickBooks integration: sync orchestrator, API client, OAuth callback

    A shallow embedding of
    - [src/lib/quickbooks/data-sync.ts]   (class [QuickBooksDataSync]),
    - [src/lib/quickbooks/quickbooks-api.ts] (class [QuickBooksAPI]),
    - the OAuth callback route ([GET]),
    together with the properties stated for them.

    JavaScript values that come out of [JSON.parse] are modelled by the
    inductive type [jsval]; numbers are IEEE doubles ([PrimFloat.float]), so
    [===] on numbers is [PrimFloat.eqb].  Code that can throw lives in the
    [outcome] monad, code that also performs requests or mutates the client
    lives in the state-and-exception monad [M]. *)

From Stdlib Require Import ZArith Floats Ascii String List Bool Lia.
From stdpp Require Import base option list gmap strings.

Set Warnings "-register-all".

(* stdpp keeps [simpl] from unfolding the append of strings. *)
#[local] Arguments String.append !_ _ / : simpl nomatch.

Local Open Scope string_scope.
Local Open Scope list_scope.

(** ** Values *)

Inductive jsval : Type :=
| JUndefined
| JNull
| JBool (b : bool)
| JNum (x : float)
| JStr (s : string)
| JArr (elems : list jsval)
| JObj (props : list (string * jsval)).

(** Modelled from the spec: the error taxonomy of [./error-handling], which
    is imported by the client and the callback route but is not among the
    sources. *)
Inductive QuickBooksErrorType : Type :=
| Authentication | Connection | RateLimit | ServerError | InvalidRequest | Unknown.

Record QuickBooksError := { error_type : QuickBooksErrorType; error_message : string }.

(** What a rejected [axios] promise carries. *)
Inductive AxiosError : Type :=
| NetworkFailure (code : string)          (* no response was received *)
| BadStatus (status : Z) (body : jsval).  (* response outside 2xx *)

(** What a JavaScript [throw] can carry here: a [TypeError] of the runtime,
    the raw error of a rejected request, or an error already classified
    into the taxonomy. *)
Inductive thrown : Type :=
| TypeError (msg : string)
| Transport (e : AxiosError)
| Classified (e : QuickBooksError).

Inductive outcome (A : Type) : Type :=
| Returned (a : A)
| Thrown (e : thrown).
Arguments Returned {A} a.
Arguments Thrown {A} e.

Definition obind {A B} (o : outcome A) (k : A -> outcome B) : outcome B :=
  match o with
  | Returned a => k a
  | Thrown e => Thrown e
  end.

Declare Scope js_scope.
Delimit Scope js_scope with js.
Notation "'let*' x ':=' c 'in' k" := (obind c (fun x => k))
  (at level 10, x name, c at level 200, k at level 200,
   format "'[v' 'let*'  x  :=  c  'in' '/' k ']'") : js_scope.
Local Open Scope js_scope.

(** [!v] is true exactly on the falsy values. *)
Definition is_nan (x : float) : bool := negb (PrimFloat.eqb x x).

Definition truthy (v : jsval) : bool :=
  match v with
  | JUndefined | JNull => false
  | JBool b => b
  | JNum x => negb (PrimFloat.eqb x 0 || is_nan x)
  | JStr s => negb (String.eqb s "")
  | JArr _ | JObj _ => true
  end.

Definition nullish (v : jsval) : bool :=
  match v with
  | JUndefined | JNull => true
  | _ => false
  end.

Fixpoint own_prop (props : list (string * jsval)) (k : string) : jsval :=
  match props with
  | [] => JUndefined
  | (k', v) :: rest => if String.eqb k' k then v else own_prop rest k
  end.

(** [v.k], for the property names this program reads off vendor payloads
    (none of them is a built-in property of a string, number, boolean or
    array): reading a property of [undefined] or [null] throws. *)
Definition prop (v : jsval) (k : string) : outcome jsval :=
  match v with
  | JUndefined => Thrown (TypeError ("Cannot read properties of undefined (reading '" ++ k ++ "')"))
  | JNull => Thrown (TypeError ("Cannot read properties of null (reading '" ++ k ++ "')"))
  | JObj props => Returned (own_prop props k)
  | _ => Returned JUndefined
  end.

(** [v?.k] *)
Definition opt_prop (v : jsval) (k : string) : outcome jsval :=
  if nullish v then Returned JUndefined else prop v k.

(** [a || b] on values, [b] evaluated only when [a] is falsy. *)
Definition js_or (a b : jsval) : jsval := if truthy a then a else b.

(** [a === b] for two values read from different places of one parsed
    payload: two object (or array) nodes are never the same reference. *)
Definition strict_eq (a b : jsval) : bool :=
  match a, b with
  | JUndefined, JUndefined => true
  | JNull, JNull => true
  | JBool x, JBool y => Bool.eqb x y
  | JNum x, JNum y => PrimFloat.eqb x y
  | JStr x, JStr y => String.eqb x y
  | _, _ => false
  end.

Fixpoint mapM {A B} (f : A -> outcome B) (l : list A) : outcome (list B) :=
  match l with
  | [] => Returned []
  | x :: rest => let* y := f x in let* ys := mapM f rest in Returned (y :: ys)
  end.

(** [v.map(f)]: only arrays have a [map] method. *)
Definition js_map {B} (v : jsval) (f : jsval -> outcome B) : outcome (list B) :=
  match v with
  | JArr elems => mapM f elems
  | JUndefined | JNull => let* x := prop v "map" in Returned []
  | _ => Thrown (TypeError "map is not a function")
  end.

(** ** Normalized records *)

Module Account.
Record t := mk { id : jsval; name : jsval; type : jsval; subType : jsval;
                   balance : jsval; isActive : jsval }.
End Account.

Module Customer.
Record t := mk { id : jsval; displayName : jsval; companyName : jsval;
                   email : jsval; phone : jsval; balance : jsval; isActive : jsval }.
End Customer.

Module InvoiceLine.
Record t := mk { description : jsval; amount : jsval; quantity : jsval;
                   unitPrice : jsval }.
End InvoiceLine.

Module Invoice.
Record t := mk { id : jsval; customerId : jsval; customerName : jsval;
                   date : jsval; dueDate : jsval; total : jsval; balance : jsval;
                   status : string; lineItems : list InvoiceLine.t }.
End Invoice.

Module BillLine.
Record t := mk { description : jsval; amount : jsval }.
End BillLine.

Module Bill.
Record t := mk { id : jsval; vendorId : jsval; vendorName : jsval;
                   date : jsval; dueDate : jsval; total : jsval; balance : jsval;
                   status : string; lineItems : list BillLine.t }.
End Bill.

Module Payment.
Record t := mk { id : jsval; customerId : jsval; customerName : jsval;
                   date : jsval; amount : jsval; paymentMethod : jsval }.
End Payment.

(** ** QuickBooksDataSync: the normalization functions *)

(** The guard [!data || !data.QueryResponse || !data.QueryResponse.K],
    evaluated left to right with short-circuiting. *)
Definition no_collection (data : jsval) (K : string) : outcome bool :=
  if negb (truthy data) then Returned true else
  let* q := prop data "QueryResponse" in
  if negb (truthy q) then Returned true else
  let* c := prop q K in
  Returned (negb (truthy c)).

Definition collection (data : jsval) (K : string) : outcome jsval :=
  let* q := prop data "QueryResponse" in prop q K.

Definition processAccounts (data : jsval) : outcome (list Account.t) :=
  let* g := no_collection data "Account" in
  if g then Returned [] else
  let* arr := collection data "Account" in
  js_map arr (fun account =>
    let* id := prop account "Id" in
    let* name := prop account "Name" in
    let* type := prop account "AccountType" in
    let* subType := prop account "AccountSubType" in
    let* balance := prop account "CurrentBalance" in
    let* isActive := prop account "Active" in
    Returned (Account.mk id name type subType balance isActive)).

Definition processCustomers (data : jsval) : outcome (list Customer.t) :=
  let* g := no_collection data "Customer" in
  if g then Returned [] else
  let* arr := collection data "Customer" in
  js_map arr (fun customer =>
    let* id := prop customer "Id" in
    let* displayName := prop customer "DisplayName" in
    let* companyName := prop customer "CompanyName" in
    let* emailAddr := prop customer "PrimaryEmailAddr" in
    let* email := opt_prop emailAddr "Address" in
    let* primaryPhone := prop customer "PrimaryPhone" in
    let* phone := opt_prop primaryPhone "FreeFormNumber" in
    let* balance := prop customer "Balance" in
    let* isActive := prop customer "Active" in
    Returned (Customer.mk id displayName companyName email phone balance isActive)).

Definition getInvoiceStatus (invoice : jsval) : outcome string :=
  let* balance := prop invoice "Balance" in
  if strict_eq balance (JNum 0) then Returned "Paid" else
  let* balance' := prop invoice "Balance" in
  let* totalAmt := prop invoice "TotalAmt" in
  if strict_eq balance' totalAmt then Returned "Unpaid" else
  Returned "Partial".

Definition processInvoices (data : jsval) : outcome (list Invoice.t) :=
  let* g := no_collection data "Invoice" in
  if g then Returned [] else
  let* arr := collection data "Invoice" in
  js_map arr (fun invoice =>
    let* id := prop invoice "Id" in
    let* customerRef := prop invoice "CustomerRef" in
    let* customerId := opt_prop customerRef "value" in
    let* customerRef' := prop invoice "CustomerRef" in
    let* customerName := opt_prop customerRef' "name" in
    let* date := prop invoice "TxnDate" in
    let* dueDate := prop invoice "DueDate" in
    let* total := prop invoice "TotalAmt" in
    let* balance := prop invoice "Balance" in
    let* status := getInvoiceStatus invoice in
    let* line := prop invoice "Line" in
    let* lineItems := js_map (js_or line (JArr [])) (fun line =>
      let* description := prop line "Description" in
      let* amount := prop line "Amount" in
      let* quantity := prop line "Quantity" in
      let* unitPrice := prop line "UnitPrice" in
      Returned (InvoiceLine.mk description amount quantity unitPrice)) in
    Returned (Invoice.mk id customerId customerName date dueDate total balance
                         status lineItems)).

Definition processBills (data : jsval) : outcome (list Bill.t) :=
  let* g := no_collection data "Bill" in
  if g then Returned [] else
  let* arr := collection data "Bill" in
  js_map arr (fun bill =>
    let* id := prop bill "Id" in
    let* vendorRef := prop bill "VendorRef" in
    let* vendorId := opt_prop vendorRef "value" in
    let* vendorRef' := prop bill "VendorRef" in
    let* vendorName := opt_prop vendorRef' "name" in
    let* date := prop bill "TxnDate" in
    let* dueDate := prop bill "DueDate" in
    let* total := prop bill "TotalAmt" in
    let* balance := prop bill "Balance" in
    let* balance' := prop bill "Balance" in
    let status := if strict_eq balance' (JNum 0) then "Paid" else "Unpaid" in
    let* line := prop bill "Line" in
    let* lineItems := js_map (js_or line (JArr [])) (fun line =>
      let* description := prop line "Description" in
      let* amount := prop line "Amount" in
      Returned (BillLine.mk description amount)) in
    Returned (Bill.mk id vendorId vendorName date dueDate total balance
                      status lineItems)).

Definition processPayments (data : jsval) : outcome (list Payment.t) :=
  let* g := no_collection data "Payment" in
  if g then Returned [] else
  let* arr := collection data "Payment" in
  js_map arr (fun payment =>
    let* id := prop payment "Id" in
    let* customerRef := prop payment "CustomerRef" in
    let* customerId := opt_prop customerRef "value" in
    let* customerRef' := prop payment "CustomerRef" in
    let* customerName := opt_prop customerRef' "name" in
    let* date := prop payment "TxnDate" in
    let* amount := prop payment "TotalAmt" in
    let* paymentMethodRef := prop payment "PaymentMethodRef" in
    let* paymentMethod := opt_prop paymentMethodRef "name" in
    Returned (Payment.mk id customerId customerName date amount paymentMethod)).

(** [processReport]: the raw report is returned as it is. *)
Definition processReport (data : jsval) : jsval := data.

(** The five record categories and the collection key each one reads. *)
Inductive category : Type := Accounts | Customers | Invoices | Bills | Payments.

Definition vendor_key (c : category) : string :=
  match c with
  | Accounts => "Account"
  | Customers => "Customer"
  | Invoices => "Invoice"
  | Bills => "Bill"
  | Payments => "Payment"
  end.

(** What [syncData] stores under a key of [results]. *)
Inductive result_value : Type :=
| AccountList (l : list Account.t)
| CustomerList (l : list Customer.t)
| InvoiceList (l : list Invoice.t)
| BillList (l : list Bill.t)
| PaymentList (l : list Payment.t)
| Report (body : jsval).

Definition omap {A B} (f : A -> B) (o : outcome A) : outcome B :=
  let* a := o in Returned (f a).

Definition normalize (c : category) (data : jsval) : outcome result_value :=
  match c with
  | Accounts => omap AccountList (processAccounts data)
  | Customers => omap CustomerList (processCustomers data)
  | Invoices => omap InvoiceList (processInvoices data)
  | Bills => omap BillList (processBills data)
  | Payments => omap PaymentList (processPayments data)
  end.

Definition no_records (c : category) : result_value :=
  match c with
  | Accounts => AccountList []
  | Customers => CustomerList []
  | Invoices => InvoiceList []
  | Bills => BillList []
  | Payments => PaymentList []
  end.

(** [data?.QueryResponse?.[K]]: the collection a payload carries, [undefined]
    when the payload, its [QueryResponse] or the collection itself is missing. *)
Definition oget (v : jsval) (k : string) : jsval :=
  match v with
  | JObj props => own_prop props k
  | _ => JUndefined
  end.

Definition vendor_collection (c : category) (data : jsval) : jsval :=
  oget (oget data "QueryResponse") (vendor_key c).

Definition missing_or_empty (v : jsval) : bool :=
  match v with
  | JUndefined | JNull | JArr [] => true
  | _ => false
  end.

(** ** The world the client runs in *)

Inductive request : Type :=
| HttpGet (url : string) (authorization : string)
    (* axios.get(url, { headers: { Authorization, Accept: "application/json" } }) *)
| HttpPost (url : string) (form : list (string * string)) (basicUser basicPassword : string).
    (* axios.post(url, new URLSearchParams(form).toString(),
                  { headers: { Authorization: Basic base64(user:password) } }) *)

Inductive reply (A : Type) : Type :=
| Resolved (data : A)
| Rejected (e : AxiosError).
Arguments Resolved {A} data.
Arguments Rejected {A} e.

(** The body of a token-endpoint response, with the types the client
    declares for the fields it reads; [refresh_token] may be left out. *)
Record TokenData := {
  access_token : string;
  refresh_token : option string;
  expires_in : Z
}.

Record config := {
  clientId : string;
  clientSecret : string;
  redirectUri : string;
  environment : string
}.

(** Everything the code takes from outside: the module configuration
    [QB_CONFIG], the vendor's answers (which may depend on the requests
    received so far), the time an exchange takes, and the classifier
    [handleQuickBooksError] whose source is missing. *)
Record env := {
  QB_CONFIG : config;
  vendor_get : list request -> string -> string -> reply jsval;
  vendor_post : list request -> string -> list (string * string) -> string -> string
                -> reply TokenData;
  elapsed : list request -> Z;
  handleQuickBooksError : thrown -> QuickBooksError
}.

(** What [localStorage] holds, before [JSON.stringify]. *)
Inductive stored : Type :=
| StoredAuth (accessToken : string) (refreshToken : option string) (expiresIn : Z)
             (realmId : string)
| StoredSync (syncedAt : Z) (data : gmap string result_value).

(** The fields of a [QuickBooksAPI] instance; instants are integer
    milliseconds, as [Date.now()] returns them. *)
Record QuickBooksAPI := mkAPI {
  accessToken : string;
  refreshToken : string;
  realmId : string;
  tokenExpiresAt : Z;
  baseUrl : string
}.

Record world := mkWorld {
  this : QuickBooksAPI;
  clock : Z;
  localStorage : gmap string stored;
  sent : list request
}.

(** State and exceptions: a throw keeps the mutations made before it. *)
Definition M (A : Type) : Type := world -> outcome A * world.

Definition ret {A} (a : A) : M A := fun st => (Returned a, st).
Definition throw {A} (e : thrown) : M A := fun st => (Thrown e, st).
Definition lift {A} (o : outcome A) : M A := fun st => (o, st).

Definition bind {A B} (m : M A) (k : A -> M B) : M B :=
  fun st =>
    match m st with
    | (Returned a, st') => k a st'
    | (Thrown e, st') => (Thrown e, st')
    end.

Definition try_catch {A} (m : M A) (handler : thrown -> M A) : M A :=
  fun st =>
    match m st with
    | (Returned a, st') => (Returned a, st')
    | (Thrown e, st') => handler e st'
    end.

Notation "'let!' x ':=' c 'in' k" := (bind c (fun x => k))
  (at level 10, x name, c at level 200, k at level 200,
   format "'[v' 'let!'  x  :=  c  'in' '/' k ']'") : js_scope.

Definition get_this : M QuickBooksAPI := fun st => (Returned (this st), st).
Definition set_this (a : QuickBooksAPI) : M unit :=
  fun st => (Returned tt, mkWorld a (clock st) (localStorage st) (sent st)).
Definition Date_now : M Z := fun st => (Returned (clock st), st).
Definition localStorage_setItem (key : string) (value : stored) : M unit :=
  fun st => (Returned tt,
             mkWorld (this st) (clock st) (<[key := value]> (localStorage st)) (sent st)).

Section Client.

Variable E : env.

(** One HTTP exchange: the request is recorded, time passes, and the
    promise resolves with [response.data] or rejects. *)
Definition exchange {A} (req : request) (answer : list request -> reply A) : M A :=
  fun st =>
    let st' := mkWorld (this st) (clock st + elapsed E (sent st)) (localStorage st)
                       (sent st ++ [req]) in
    match answer (sent st) with
    | Resolved data => (Returned data, st')
    | Rejected e => (Thrown (Transport e), st')
    end.

Definition axios_get (url authorization : string) : M jsval :=
  exchange (HttpGet url authorization) (fun h => vendor_get E h url authorization).

Definition axios_post (url : string) (form : list (string * string))
           (user password : string) : M TokenData :=
  exchange (HttpPost url form user password)
           (fun h => vendor_post E h url form user password).

(** ** QuickBooksAPI *)

Definition new_QuickBooksAPI (accessToken refreshToken realmId : string)
           (expiresIn : option Z) (now : Z) : QuickBooksAPI :=
  mkAPI accessToken refreshToken realmId
        (match expiresIn with
         | Some n => if (n =? 0)%Z then now + 3600 * 1000 else now + n * 1000
         | None => now + 3600 * 1000
         end)%Z
        (if String.eqb (environment (QB_CONFIG E)) "production"
         then "https://quickbooks.api.intuit.com/v3"
         else "https://sandbox-quickbooks.api.intuit.com/v3").

Definition getHeaders : M string :=
  let! api := get_this in ret ("Bearer " +:+ accessToken api).

Definition token_endpoint : string :=
  "https://oauth.platform.intuit.com/oauth2/v1/tokens/bearer".

(** [value || fallback] for an optional string. *)
Definition str_or (value : option string) (fallback : string) : string :=
  match value with
  | Some s => if String.eqb s "" then fallback else s
  | None => fallback
  end.

Definition refreshAccessToken : M bool :=
  try_catch
    (let! api := get_this in
     let! data := axios_post token_endpoint
                    [("grant_type", "refresh_token"); ("refresh_token", refreshToken api)]
                    (clientId (QB_CONFIG E)) (clientSecret (QB_CONFIG E)) in
     let! now := Date_now in
     let api' := mkAPI (access_token data)
                       (str_or (refresh_token data) (refreshToken api))
                       (realmId api)
                       (now + expires_in data * 1000)%Z
                       (baseUrl api) in
     let! _ := set_this api' in
     let! _ := localStorage_setItem "qb_auth_data"
                 (StoredAuth (accessToken api') (Some (refreshToken api')) (expires_in data)
                             (realmId api')) in
     ret true)
    (fun error => throw error).

Definition ensureValidToken : M unit :=
  let! now := Date_now in
  let! api := get_this in
  if (now >=? tokenExpiresAt api - 300000)%Z
  then let! _ := refreshAccessToken in ret tt
  else ret tt.

(** The shape shared by every read operation:
    [try { await this.ensureValidToken(); ... axios.get(url, headers) ... }
     catch (error) { throw error }]. *)
Definition authorized_get (url : QuickBooksAPI -> string) : M jsval :=
  try_catch
    (let! _ := ensureValidToken in
     let! api := get_this in
     let! headers := getHeaders in
     axios_get (url api) headers)
    (fun error => throw error).

Definition company_url (api : QuickBooksAPI) : string :=
  baseUrl api +:+ "/company/" +:+ realmId api.

Definition getCompanyInfo : M jsval :=
  authorized_get (fun api => company_url api +:+ "/companyinfo/" +:+ realmId api).

Definition getAccounts : M jsval :=
  authorized_get (fun api => company_url api +:+ "/query?query=select * from Account").

Definition getCustomers : M jsval :=
  authorized_get (fun api => company_url api +:+ "/query?query=select * from Customer").

(** Truthiness of an optional string argument. *)
Definition given (d : option string) : bool :=
  match d with
  | Some s => negb (String.eqb s "")
  | None => false
  end.

(** [`${d}`] *)
Definition text (d : option string) : string :=
  match d with
  | Some s => s
  | None => "undefined"
  end.

(** The block that extends [query] with the date filter; it is repeated
    verbatim in [getInvoices], [getBills] and [getPayments]. *)
Definition date_filter (query : string) (startDate endDate : option string) : string :=
  if given startDate || given endDate then
    let query := query +:+ " WHERE " in
    let query := if given startDate
                 then query +:+ "TxnDate >= '" +:+ text startDate +:+ "'" else query in
    let query := if given startDate && given endDate
                 then query +:+ " AND " else query in
    let query := if given endDate
                 then query +:+ "TxnDate <= '" +:+ text endDate +:+ "'" else query in
    query
  else query.

Definition unreserved (c : ascii) : bool :=
  let n := nat_of_ascii c in
  (Nat.leb 65 n && Nat.leb n 90) || (Nat.leb 97 n && Nat.leb n 122) ||
  (Nat.leb 48 n && Nat.leb n 57) ||
  existsb (Ascii.eqb c) (list_ascii_of_string "-_.!~*'()").

Definition hex_digit (n : nat) : ascii :=
  nth n (list_ascii_of_string "0123456789ABCDEF") "0"%char.

(** [encodeURIComponent] on a string given as its UTF-8 bytes. *)
Fixpoint encodeURIComponent (s : string) : string :=
  match s with
  | EmptyString => EmptyString
  | String c rest =>
      if unreserved c then String c (encodeURIComponent rest)
      else String "%" (String (hex_digit (nat_of_ascii c / 16))
             (String (hex_digit (nat_of_ascii c mod 16)) (encodeURIComponent rest)))
  end.

Definition query_url (api : QuickBooksAPI) (query : string) : string :=
  company_url api +:+ "/query?query=" +:+ encodeURIComponent query.

Definition getInvoices (startDate endDate : option string) : M jsval :=
  authorized_get (fun api =>
    query_url api (date_filter "select * from Invoice" startDate endDate)).

Definition getBills (startDate endDate : option string) : M jsval :=
  authorized_get (fun api =>
    query_url api (date_filter "select * from Bill" startDate endDate)).

Definition getPayments (startDate endDate : option string) : M jsval :=
  authorized_get (fun api =>
    query_url api (date_filter "select * from Payment" startDate endDate)).

Definition getProfitAndLossReport (startDate endDate : option string) : M jsval :=
  authorized_get (fun api =>
    company_url api +:+ "/reports/ProfitAndLoss?start_date=" +:+ text startDate
      +:+ "&end_date=" +:+ text endDate).

Definition getBalanceSheetReport (date : option string) : M jsval :=
  authorized_get (fun api =>
    company_url api +:+ "/reports/BalanceSheet?as_of=" +:+ text date).

Definition getCashFlowReport (startDate endDate : option string) : M jsval :=
  authorized_get (fun api =>
    company_url api +:+ "/reports/CashFlow?start_date=" +:+ text startDate
      +:+ "&end_date=" +:+ text endDate).

Inductive ConnectionTest : Type :=
| ConnectionOk
| ConnectionFailed (error : QuickBooksError).

Definition testConnection : M ConnectionTest :=
  try_catch
    (let! _ := getCompanyInfo in ret ConnectionOk)
    (fun error => ret (ConnectionFailed (handleQuickBooksError E error))).

(** The methods of a [QuickBooksAPI] instance that return vendor data, by
    name, as a caller holding the object finds them; arguments left out are
    [undefined]. *)
Definition arg (args : list (option string)) (i : nat) : option string :=
  nth i args None.

Definition QuickBooksAPI_methods : list (string * (list (option string) -> M jsval)) :=
  [ ("getCompanyInfo", fun _ => getCompanyInfo);
    ("getAccounts", fun _ => getAccounts);
    ("getCustomers", fun _ => getCustomers);
    ("getInvoices", fun args => getInvoices (arg args 0) (arg args 1));
    ("getBills", fun args => getBills (arg args 0) (arg args 1));
    ("getPayments", fun args => getPayments (arg args 0) (arg args 1));
    ("getProfitAndLossReport", fun args => getProfitAndLossReport (arg args 0) (arg args 1));
    ("getBalanceSheetReport", fun args => getBalanceSheetReport (arg args 0));
    ("getCashFlowReport", fun args => getCashFlowReport (arg args 0) (arg args 1)) ].

Fixpoint find_method {F} (methods : list (string * F)) (name : string) : option F :=
  match methods with
  | [] => None
  | (n, f) :: rest => if String.eqb n name then Some f else find_method rest name
  end.

(** [this.api.name(args)]: calling a property that is not there throws. *)
Definition call_api (name : string) (args : list (option string)) : M jsval :=
  match find_method QuickBooksAPI_methods name with
  | Some method => method args
  | None => throw (TypeError ("this.api." +:+ name +:+ " is not a function"))
  end.

(** ** QuickBooksDataSync *)

(** The enable flags are read only through [if (options.flag)], so a flag
    left out counts as [false]. *)
Record SyncOptions := {
  syncAccounts : bool;
  syncCustomers : bool;
  syncInvoices : bool;
  syncBills : bool;
  syncPayments : bool;
  syncReports : bool;
  startDate : option string;
  endDate : option string
}.

(** [{ success, data }] or [{ success, error }]. *)
Record SyncResult := {
  success : bool;
  data : option (gmap string result_value);
  error : option string
}.

Definition storeData (data : gmap string result_value) : M unit :=
  let! now := Date_now in
  localStorage_setItem "quickbooks_data" (StoredSync now data).

Definition syncData (options : SyncOptions) : M SyncResult :=
  let results : gmap string result_value := ∅ in
  try_catch
    (let! results :=
       (if syncAccounts options then
          let! accountsData := call_api "getAccounts" [] in
          let! accounts := lift (processAccounts accountsData) in
          ret (<["accounts" := AccountList accounts]> results)
        else ret results) in
     let! results :=
       (if syncCustomers options then
          let! customersData := call_api "getCustomers" [] in
          let! customers := lift (processCustomers customersData) in
          ret (<["customers" := CustomerList customers]> results)
        else ret results) in
     let! results :=
       (if syncInvoices options then
          let! invoicesData := call_api "getInvoices" [] in
          let! invoices := lift (processInvoices invoicesData) in
          ret (<["invoices" := InvoiceList invoices]> results)
        else ret results) in
     let! results :=
       (if syncBills options then
          let! billsData := call_api "getBills" [] in
          let! bills := lift (processBills billsData) in
          ret (<["bills" := BillList bills]> results)
        else ret results) in
     let! results :=
       (if syncPayments options then
          let! paymentsData := call_api "getPayments" [] in
          let! payments := lift (processPayments paymentsData) in
          ret (<["payments" := PaymentList payments]> results)
        else ret results) in
     let! results :=
       (if syncReports options && given (startDate options) && given (endDate options) then
          let! plReport := call_api "getProfitAndLossReport"
                             [startDate options; endDate options] in
          let results := <["profitAndLoss" := Report (processReport plReport)]> results in
          let! bsReport := call_api "getBalanceSheet" [endDate options] in
          let results := <["balanceSheet" := Report (processReport bsReport)]> results in
          let! cfReport := call_api "getCashFlowStatement"
                             [startDate options; endDate options] in
          let results := <["cashFlow" := Report (processReport cfReport)]> results in
          ret results
        else ret results) in
     let! _ := storeData results in
     ret {| success := true; data := Some results; error := None |})
    (fun _ =>
       ret {| success := false; data := None;
              error := Some "Failed to sync data from QuickBooks" |}).

(** ** The OAuth callback route *)

Record Cookie := {
  cookie_name : string;
  cookie_value : stored;
  httpOnly : bool;
  secure : bool;
  maxAge : Z;
  cookie_path : string
}.

Inductive NextResponse : Type :=
| JsonResponse (status : Z) (error : string)
    (* NextResponse.json({ error }, { status }) *)
| RedirectConnected (cookie : Cookie)
    (* redirect to /integrations/quickbooks/connected, with the cookie set *)
| RedirectError (type : QuickBooksErrorType) (message : string).
    (* redirect to /integrations/quickbooks/error?type=..&message=.. *)

(** [GET(request)], from the three query parameters of the request and the
    requests the token endpoint has received so far; [searchParams.get]
    gives [null] for a parameter that is not there.  [QB_CONFIG.environment]
    is "production" exactly when [process.env.NODE_ENV] is. *)
Definition GET (code state realmId : option string) (received : list request)
  : NextResponse * list request :=
  if negb (given code) || negb (given state) || negb (given realmId) then
    (JsonResponse 400 "Missing required parameters", received)
  else
    let form := [("grant_type", "authorization_code"); ("code", text code);
                 ("redirect_uri", redirectUri (QB_CONFIG E))] in
    let user := clientId (QB_CONFIG E) in
    let password := clientSecret (QB_CONFIG E) in
    let received' := received ++ [HttpPost token_endpoint form user password] in
    match vendor_post E received token_endpoint form user password with
    | Resolved tokens =>
        let authData := StoredAuth (access_token tokens) (refresh_token tokens)
                                   (expires_in tokens) (text realmId) in
        (RedirectConnected
           {| cookie_name := "qb_auth_data"; cookie_value := authData;
              httpOnly := true;
              secure := String.eqb (environment (QB_CONFIG E)) "production";
              maxAge := 60 * 60 * 24 * 30; cookie_path := "/" |},
         received')
    | Rejected e =>
        let qbError := handleQuickBooksError E (Transport e) in
        (RedirectError (error_type qbError) (error_message qbError), received')
    end.

End Client.

(** ** Vocabulary of the properties *)

(** The read operations of the client, with their arguments. *)
Inductive operation : Type :=
| OpCompanyInfo
| OpAccounts
| OpCustomers
| OpInvoices (startDate endDate : option string)
| OpBills (startDate endDate : option string)
| OpPayments (startDate endDate : option string)
| OpProfitAndLoss (startDate endDate : option string)
| OpBalanceSheet (date : option string)
| OpCashFlow (startDate endDate : option string).

Definition perform (E : env) (op : operation) : M jsval :=
  match op with
  | OpCompanyInfo => getCompanyInfo E
  | OpAccounts => getAccounts E
  | OpCustomers => getCustomers E
  | OpInvoices s e => getInvoices E s e
  | OpBills s e => getBills E s e
  | OpPayments s e => getPayments E s e
  | OpProfitAndLoss s e => getProfitAndLossReport E s e
  | OpBalanceSheet d => getBalanceSheetReport E d
  | OpCashFlow s e => getCashFlowReport E s e
  end.

(** The operation's own request, as the client in state [api] sends it. *)
Definition operation_url (op : operation) (api : QuickBooksAPI) : string :=
  match op with
  | OpCompanyInfo => company_url api +:+ "/companyinfo/" +:+ realmId api
  | OpAccounts => company_url api +:+ "/query?query=select * from Account"
  | OpCustomers => company_url api +:+ "/query?query=select * from Customer"
  | OpInvoices s e => query_url api (date_filter "select * from Invoice" s e)
  | OpBills s e => query_url api (date_filter "select * from Bill" s e)
  | OpPayments s e => query_url api (date_filter "select * from Payment" s e)
  | OpProfitAndLoss s e =>
      company_url api +:+ "/reports/ProfitAndLoss?start_date=" +:+ text s
        +:+ "&end_date=" +:+ text e
  | OpBalanceSheet d => company_url api +:+ "/reports/BalanceSheet?as_of=" +:+ text d
  | OpCashFlow s e =>
      company_url api +:+ "/reports/CashFlow?start_date=" +:+ text s
        +:+ "&end_date=" +:+ text e
  end.

Definition own_request (op : operation) (api : QuickBooksAPI) : request :=
  HttpGet (operation_url op api) ("Bearer " +:+ accessToken api).

(** The token-refresh request of a client in state [api]. *)
Definition refresh_form_of (token : string) : list (string * string) :=
  [("grant_type", "refresh_token"); ("refresh_token", token)].

Definition refresh_form (api : QuickBooksAPI) : list (string * string) :=
  refresh_form_of (refreshToken api).

Definition refresh_request (E : env) (api : QuickBooksAPI) : request :=
  HttpPost token_endpoint (refresh_form api)
           (clientId (QB_CONFIG E)) (clientSecret (QB_CONFIG E)).

(** The client after a refresh answered with [data] at instant [now]. *)
Definition refreshed (api : QuickBooksAPI) (data : TokenData) (now : Z) : QuickBooksAPI :=
  mkAPI (access_token data) (str_or (refresh_token data) (refreshToken api))
        (realmId api) (now + expires_in data * 1000)%Z (baseUrl api).

(** The world after one exchange that started in [st]. *)
Definition after_exchange (E : env) (st : world) (api : QuickBooksAPI)
           (storage : gmap string stored) (req : request) : world :=
  mkWorld api (clock st + elapsed E (sent st)) storage (sent st ++ [req]).

(** The answer of the token endpoint to a refresh attempted in [st]. *)
Definition refresh_reply (E : env) (st : world) : reply TokenData :=
  vendor_post E (sent st) token_endpoint (refresh_form (this st))
              (clientId (QB_CONFIG E)) (clientSecret (QB_CONFIG E)).

(** An error of the Authentication class of the taxonomy. *)
Definition authentication_class (e : thrown) : Prop :=
  exists message, e = Classified {| error_type := Authentication; error_message := message |}.

(** The three transaction queries that take a date range. *)
Inductive transaction : Type := TxInvoice | TxBill | TxPayment.

Definition transaction_select (t : transaction) : string :=
  match t with
  | TxInvoice => "select * from Invoice"
  | TxBill => "select * from Bill"
  | TxPayment => "select * from Payment"
  end.

Definition getTransactions (E : env) (t : transaction) : option string -> option string -> M jsval :=
  match t with
  | TxInvoice => getInvoices E
  | TxBill => getBills E
  | TxPayment => getPayments E
  end.

(** The date filter in the words of the specification: a bound is present
    when it is supplied and not the empty string; the filter is
    [TxnDate >= start AND TxnDate <= end], a clause is left out with its
    bound, and without bounds there is no WHERE clause. *)
Definition present_bound (d : option string) : option string :=
  match d with
  | Some s => if String.eqb s "" then None else Some s
  | None => None
  end.

Definition spec_where_clause (startDate endDate : option string) : string :=
  match present_bound startDate, present_bound endDate with
  | Some s, Some e => " WHERE TxnDate >= '" +:+ s +:+ "' AND TxnDate <= '" +:+ e +:+ "'"
  | Some s, None => " WHERE TxnDate >= '" +:+ s +:+ "'"
  | None, Some e => " WHERE TxnDate <= '" +:+ e +:+ "'"
  | None, None => ""
  end.

(** ** Vocabulary for the orchestrator *)

Definition category_enabled (o : SyncOptions) (c : category) : bool :=
  match c with
  | Accounts => syncAccounts o
  | Customers => syncCustomers o
  | Invoices => syncInvoices o
  | Bills => syncBills o
  | Payments => syncPayments o
  end.

(** The client operation [syncData] invokes for a category. *)
Definition category_operation (c : category) : operation :=
  match c with
  | Accounts => OpAccounts
  | Customers => OpCustomers
  | Invoices => OpInvoices None None
  | Bills => OpBills None None
  | Payments => OpPayments None None
  end.

(** The condition [options.syncReports && options.startDate && options.endDate]. *)
Definition reports_gate (o : SyncOptions) : bool :=
  syncReports o && given (startDate o) && given (endDate o).


Definition sync_failure : SyncResult :=
  {| success := false; data := None;
     error := Some "Failed to sync data from QuickBooks" |}.

(** The requests a sync with options [o] may send from a client whose
    endpoint is that of [api]: token refreshes, the five unfiltered queries
    and the profit-and-loss report over the configured range. *)
Definition sync_urls (o : SyncOptions) (api : QuickBooksAPI) : list string :=
  [ operation_url OpAccounts api;
    operation_url OpCustomers api;
    operation_url (OpInvoices None None) api;
    operation_url (OpBills None None) api;
    operation_url (OpPayments None None) api;
    operation_url (OpProfitAndLoss (startDate o) (endDate o)) api ].

Definition sync_request (o : SyncOptions) (api : QuickBooksAPI) (r : request) : Prop :=
  match r with
  | HttpGet url _ => In url (sync_urls o api)
  | HttpPost url form _ _ =>
      url = token_endpoint /\ exists token, form = refresh_form_of token
  end.

Definition same_endpoint (a b : QuickBooksAPI) : Prop :=
  baseUrl a = baseUrl b /\ realmId a = realmId b.

(** What every step of a sync that started in [st0] maintains. *)
Record sync_inv (o : SyncOptions) (st0 st : world) : Prop := {
  inv_endpoint : same_endpoint (this st) (this st0);
  inv_snapshot : localStorage st !! "quickbooks_data" = localStorage st0 !! "quickbooks_data";
  inv_sent : exists l, sent st = sent st0 ++ l /\ Forall (sync_request o (this st0)) l
}.

(** The vendor rejects every request for the data of category [c]. *)
Definition fetch_rejected (E : env) (api : QuickBooksAPI) (c : category) : Prop :=
  forall received authorization, exists e,
    vendor_get E received (operation_url (category_operation c) api) authorization
    = Rejected e.

Definition sync_success (results : gmap string result_value) : SyncResult :=
  {| success := true; data := Some results; error := None |}.

(** The world once [storeData] has written the snapshot. *)
Definition snapshot_stored (st : world) (results : gmap string result_value) : world :=
  mkWorld (this st) (clock st)
          (<["quickbooks_data" := StoredSync (clock st) results]> (localStorage st))
          (sent st).

(** The invariant together with a fact [G] collected on the way. *)
Definition running (o : SyncOptions) (st0 : world) (G : Prop) : world -> Prop :=
  fun st => sync_inv o st0 st /\ G.

(** What a sync that started in [st0] has done when it ends: it failed and
    kept the invariant, or every step went through and the snapshot was
    written last. *)
Definition sync_post (E : env) (o : SyncOptions) (st0 : world)
           (out : outcome SyncResult) (st : world) : Prop :=
  (out = Returned sync_failure /\ sync_inv o st0 st) \/
  (exists results st1,
     out = Returned (sync_success results) /\ sync_inv o st0 st1 /\
     st = snapshot_stored st1 results /\
     reports_gate o = false /\
     forall c, ~ (category_enabled o c = true /\ fetch_rejected E (this st0) c)).

(** Hoare triples over [M], with the outcome in the postcondition. *)
Definition hoare {A} (P : world -> Prop) (m : M A) (Q : outcome A -> world -> Prop) : Prop :=
  forall st, P st -> Q (fst (m st)) (snd (m st)).

(** ** The vendor's answers along a run *)

(** The answer the vendor gives to request [r] when it has received the
    requests [h] before: a response, or a rejection. *)
Definition resolved (E : env) (h : list request) (r : request) : Prop :=
  match r with
  | HttpGet url authorization =>
      exists data, vendor_get E h url authorization = Resolved data
  | HttpPost url form user password =>
      exists data, vendor_post E h url form user password = Resolved data
  end.

Definition rejected (E : env) (h : list request) (r : request) : Prop :=
  match r with
  | HttpGet url authorization =>
      exists e, vendor_get E h url authorization = Rejected e
  | HttpPost url form user password =>
      exists e, vendor_post E h url form user password = Rejected e
  end.

(** Every request of [l], sent in this order after [h], got a response. *)
Fixpoint answered_from (E : env) (h l : list request) : Prop :=
  match l with
  | [] => True
  | r :: l' => resolved E h r /\ answered_from E (h ++ [r]) l'
  end.

(** The run from [st0] to [st] had all its requests answered; or all of
    them but, possibly, the last one. *)
Definition answered_inv (E : env) (st0 st : world) : Prop :=
  exists l, sent st = sent st0 ++ l /\ answered_from E (sent st0) l.

Definition stopped_inv (E : env) (st0 st : world) : Prop :=
  exists l, sent st = sent st0 ++ l /\ answered_from E (sent st0) (removelast l).

(** ** Sample worlds *)

Definition demo_config : config :=
  {| clientId := "client-id"; clientSecret := "client-secret";
     redirectUri := "https://crm.example/api/quickbooks/auth/callback";
     environment := "sandbox" |}.

(** Modelled from the spec: [handleQuickBooksError] of [./error-handling],
    which maps transport and HTTP outcomes to the taxonomy by status code
    and network failure; only used to complete the sample worlds. *)
Definition classify (e : thrown) : QuickBooksError :=
  match e with
  | Transport (NetworkFailure code) =>
      {| error_type := Connection; error_message := code |}
  | Transport (BadStatus status _) =>
      {| error_type :=
           if (status =? 401)%Z then Authentication
           else if (status =? 429)%Z then RateLimit
           else if (status =? 400)%Z then InvalidRequest
           else if (500 <=? status)%Z then ServerError
           else Unknown;
         error_message := "Request failed" |}
  | Classified q => q
  | TypeError msg => {| error_type := Unknown; error_message := msg |}
  end.

Definition demo_env (get : string -> reply jsval) (post : reply TokenData) : env :=
  {| QB_CONFIG := demo_config;
     vendor_get := fun _ url _ => get url;
     vendor_post := fun _ _ _ _ _ => post;
     elapsed := fun _ => 120%Z;
     handleQuickBooksError := classify |}.

Definition demo_token : TokenData :=
  {| access_token := "access-2"; refresh_token := Some "refresh-2"; expires_in := 3600 |}.

Definition demo_api (expiresAt : Z) : QuickBooksAPI :=
  mkAPI "access-1" "refresh-1" "4620816365"
        expiresAt "https://sandbox-quickbooks.api.intuit.com/v3".

(** A world at instant [1000000] whose token expires at [expiresAt]. *)
Definition demo_world (expiresAt : Z) : world :=
  mkWorld (demo_api expiresAt) 1000000 ∅ [].

Definition demo_accounts : jsval :=
  JObj [("QueryResponse", JObj [("Account", JArr [
    JObj [("Id", JStr "1"); ("Name", JStr "Checking"); ("AccountType", JStr "Bank");
          ("CurrentBalance", JNum 1201); ("Active", JBool true)];
    JObj [("Id", JStr "2"); ("Name", JStr "Sales"); ("AccountType", JStr "Income");
          ("CurrentBalance", JNum 0); ("Active", JBool true)]])])].

(** A vendor that answers every request. *)
Definition vendor_up : env :=
  demo_env (fun _ => Resolved demo_accounts) (Resolved demo_token).

(** A vendor whose token endpoint cannot be reached. *)
Definition vendor_token_down : env :=
  demo_env (fun _ => Resolved demo_accounts) (Rejected (NetworkFailure "ECONNREFUSED")).

(** A vendor that throttles the Customer query once: status 429 to the
    first request for it, the payload to every other request. *)
Definition asked_before (url : string) (h : list request) : bool :=
  existsb (fun r => match r with
                    | HttpGet url' _ => String.eqb url' url
                    | HttpPost _ _ _ _ => false
                    end) h.

Definition vendor_throttled : env :=
  {| QB_CONFIG := demo_config;
     vendor_get := fun h url _ =>
       if String.eqb url (operation_url OpCustomers (demo_api 0)) && negb (asked_before url h)
       then Rejected (BadStatus 429 JNull)
       else Resolved demo_accounts;
     vendor_post := fun _ _ _ _ _ => Resolved demo_token;
     elapsed := fun _ => 120%Z;
     handleQuickBooksError := classify |}.

Definition everything_selected : SyncOptions :=
  {| syncAccounts := true; syncCustomers := true; syncInvoices := true;
     syncBills := true; syncPayments := true; syncReports := false;
     startDate := None; endDate := None |}.


Definition reports_only (s e : option string) : SyncOptions :=
  {| syncAccounts := false; syncCustomers := false; syncInvoices := false;
     syncBills := false; syncPayments := false; syncReports := true;
     startDate := s; endDate := e |}.

(** ** Vocabulary for the normalization functions *)

(** The elements of a vendor collection: those of the array, none when the
    collection is not one. *)
Definition elements (v : jsval) : list jsval :=
  match v with
  | JArr elems => elems
  | _ => []
  end.

Definition record_ids (v : result_value) : list jsval :=
  match v with
  | AccountList l => map Account.id l
  | CustomerList l => map Customer.id l
  | InvoiceList l => map Invoice.id l
  | BillList l => map Bill.id l
  | PaymentList l => map Payment.id l
  | Report _ => []
  end.

(** A [Line] value the line-item mapping can go through: falsy (replaced
    by the empty array), or an array without [null] or [undefined] in it. *)
Definition lines_ok (line : jsval) : bool :=
  if truthy line then
    match line with
    | JArr ls => forallb (fun l => negb (nullish l)) ls
    | _ => false
    end
  else true.

(** An element of a collection that its category's mapping can go through. *)
Definition element_ok (c : category) (e : jsval) : bool :=
  match c with
  | Accounts | Customers | Payments => negb (nullish e)
  | Invoices | Bills => negb (nullish e) && lines_ok (oget e "Line")
  end.

Definition collection_ok (c : category) (v : jsval) : bool :=
  if truthy v then
    match v with
    | JArr es => forallb (element_ok c) es
    | _ => false
    end
  else true.

(** ** Further vocabulary for the orchestrator *)

(** The key of [results] a category is stored under. *)
Definition category_key (c : category) : string :=
  match c with
  | Accounts => "accounts"
  | Customers => "customers"
  | Invoices => "invoices"
  | Bills => "bills"
  | Payments => "payments"
  end.

(** What one category block makes of the mapping it starts from. *)
Definition step_result (o : SyncOptions) (c : category)
           (before after : gmap string result_value) : Prop :=
  if category_enabled o c then
    exists payload v,
      normalize c payload = Returned v /\ after = <[category_key c := v]> before
  else after = before.

(** ** auth.ts: the OAuth state kept in [localStorage]

    Here [localStorage] is taken as it is, a map from strings to strings. *)

Definition storeOAuthState (state : string) (storage : gmap string string)
  : gmap string string :=
  <["qb_oauth_state" := state]> storage.

(** [state === storedState], where [getItem] gives [null] for a missing key. *)
Definition verifyOAuthState (state : string) (storage : gmap string string) : bool :=
  match storage !! "qb_oauth_state" with
  | Some storedState => String.eqb state storedState
  | None => false
  end.

Definition clearOAuthState (storage : gmap string string) : gmap string string :=
  delete "qb_oauth_state" storage.

(** ** Sample payloads *)

Definition demo_invoices : jsval :=
  JObj [("QueryResponse", JObj [("Invoice", JArr [
    JObj [("Id", JStr "130"); ("TotalAmt", JNum 100); ("Balance", JNum 40);
          ("Line", JArr [JObj [("Amount", JNum 60)]; JObj [("Amount", JNum 40)]])];
    JObj [("Id", JStr "131"); ("TotalAmt", JNum 25); ("Balance", JNum 0)]])])].

Definition accounts_only : SyncOptions :=
  {| syncAccounts := true; syncCustomers := false; syncInvoices := false;
     syncBills := false; syncPayments := false; syncReports := false;
     startDate := Some "2024-01-01"; endDate := Some "2024-06-01" |}.

Definition nothing_selected : SyncOptions :=
  {| syncAccounts := false; syncCustomers := false; syncInvoices := false;
     syncBills := false; syncPayments := false; syncReports := true;
     startDate := None; endDate := Some "2024-06-01" |}.

(** * Properties *)

Section Normalization.

Lemma obind_Returned {A B} (o : outcome A) (k : A -> outcome B) (b : B) :
  obind o k = Returned b -> exists a, o = Returned a /\ k a = Returned b.
Proof. destruct o as [a|e]; simpl; [eauto | discriminate]. Qed.

(** Invert a chain of binds that is known to return. *)
Ltac inv_binds :=
  repeat match goal with
  | H : obind _ _ = Returned _ |- _ =>
      let a := fresh "v" in let Ha := fresh "Hv" in
      apply obind_Returned in H; destruct H as (a & Ha & H)
  | H : (if ?c then _ else _) = Returned _ |- _ =>
      let Hc := fresh "Hc" in destruct c eqn:Hc
  | H : Returned _ = Returned _ |- _ => injection H as H; subst
  end.

(** Two reads of one property give one value. *)
Ltac same_reads :=
  repeat match goal with
  | H1 : ?e = Returned ?a, H2 : ?e = Returned ?b |- _ =>
      assert (a = b) by congruence; subst; clear H2
  end.

Lemma mapM_In {A B} (f : A -> outcome B) (l : list A) (rs : list B) (r : B) :
  mapM f l = Returned rs -> In r rs -> exists x, In x l /\ f x = Returned r.
Proof.
  revert rs. induction l as [|x l IH]; simpl; intros rs Hm Hin.
  - injection Hm as <-. destruct Hin.
  - destruct (f x) as [y|e] eqn:Hfx; simpl in Hm; [|discriminate].
    destruct (mapM f l) as [ys|e] eqn:Hl; simpl in Hm; [|discriminate].
    injection Hm as <-. destruct Hin as [->|Hin].
    + exists x. auto.
    + destruct (IH ys eq_refl Hin) as (x' & Hx' & Hf). exists x'. auto.
Qed.

Lemma js_map_In {B} (v : jsval) (f : jsval -> outcome B) (rs : list B) (r : B) :
  js_map v f = Returned rs -> In r rs -> exists x, f x = Returned r.
Proof.
  destruct v; simpl; try discriminate. intros Hm Hin.
  destruct (mapM_In _ _ _ _ Hm Hin) as (x & _ & Hx). eauto.
Qed.

Lemma process_In {B} (K : string) (data : jsval) (f : jsval -> outcome B)
      (rs : list B) (r : B) :
  (let* g := no_collection data K in
   if g then Returned [] else
   let* arr := collection data K in js_map arr f) = Returned rs ->
  In r rs -> exists x, f x = Returned r.
Proof.
  intros H Hin.
  destruct (no_collection data K) as [[|]|e]; simpl in H; try discriminate.
  - injection H as <-. destruct Hin.
  - destruct (collection data K) as [arr|e]; simpl in H; [|discriminate].
    eapply js_map_In; eauto.
Qed.

(** C2. Every normalized invoice has status "Paid" exactly when its balance
    [=== 0]; "Unpaid" exactly when its balance [===] its total and is not
    [=== 0]; and "Partial" in every other case. *)
Theorem invoice_status_spec (data : jsval) (recs : list Invoice.t) (r : Invoice.t) :
  processInvoices data = Returned recs -> In r recs ->
  (Invoice.status r = "Paid" <-> strict_eq (Invoice.balance r) (JNum 0) = true) /\
  (Invoice.status r = "Unpaid" <->
     strict_eq (Invoice.balance r) (Invoice.total r) = true /\
     strict_eq (Invoice.balance r) (JNum 0) = false) /\
  (strict_eq (Invoice.balance r) (JNum 0) = false ->
   strict_eq (Invoice.balance r) (Invoice.total r) = false ->
   Invoice.status r = "Partial").
Proof.
  intros H Hin. destruct (process_In _ _ _ _ _ H Hin) as (inv & Hr). clear H Hin.
  unfold getInvoiceStatus in Hr.
  cbv beta in Hr. unfold getInvoiceStatus in Hr. inv_binds.
  all: simpl; same_reads; rewrite ?Hc, ?Hc0.
  all: repeat split; intros; try discriminate; try tauto; try congruence.
  all: destruct H; congruence.
Qed.

Lemma invoice_status_spec_witness :
  let data := JObj [("QueryResponse", JObj [("Invoice", JArr [
      JObj [("Id", JStr "7"); ("TotalAmt", JNum 100); ("Balance", JNum 40)]])])] in
  let r := Invoice.mk (JStr "7") JUndefined JUndefined JUndefined JUndefined
                      (JNum 100) (JNum 40) "Partial" [] in
  processInvoices data = Returned [r] /\ Invoice.status r = "Partial".
Proof.
  intros data r.
  assert (Hrun : processInvoices data = Returned [r]) by reflexivity.
  split; [exact Hrun|].
  apply (invoice_status_spec data [r] r Hrun (or_introl eq_refl)); reflexivity.
Defined.

(** Scenario B of the specification, run on the code. *)
Example invoice_status_scenario :
  getInvoiceStatus (JObj [("TotalAmt", JNum 100); ("Balance", JNum 100)]) = Returned "Unpaid" /\
  getInvoiceStatus (JObj [("TotalAmt", JNum 100); ("Balance", JNum 0)]) = Returned "Paid" /\
  getInvoiceStatus (JObj [("TotalAmt", JNum 100); ("Balance", JNum 40)]) = Returned "Partial".
Proof. repeat split; reflexivity. Qed.

(** C3. Every normalized bill has status "Paid" exactly when its balance
    [=== 0] and "Unpaid" in every other case; it is never "Partial". *)
Theorem bill_status_spec (data : jsval) (recs : list Bill.t) (r : Bill.t) :
  processBills data = Returned recs -> In r recs ->
  (Bill.status r = "Paid" <-> strict_eq (Bill.balance r) (JNum 0) = true) /\
  (Bill.status r = "Unpaid" <-> strict_eq (Bill.balance r) (JNum 0) = false) /\
  Bill.status r <> "Partial".
Proof.
  intros H Hin. destruct (process_In _ _ _ _ _ H Hin) as (bill & Hr). clear H Hin.
  cbv beta zeta in Hr. inv_binds. simpl. same_reads.
  destruct (strict_eq _ _); repeat split; intros; congruence.
Qed.

Lemma bill_status_spec_witness :
  let data := JObj [("QueryResponse", JObj [("Bill", JArr [
      JObj [("Id", JStr "3"); ("TotalAmt", JNum 100); ("Balance", JNum 40)]])])] in
  let r := Bill.mk (JStr "3") JUndefined JUndefined JUndefined JUndefined
                   (JNum 100) (JNum 40) "Unpaid" [] in
  processBills data = Returned [r] /\ Bill.status r <> "Partial".
Proof.
  intros data r.
  assert (Hrun : processBills data = Returned [r]) by reflexivity.
  split; [exact Hrun|].
  apply (bill_status_spec data [r] r Hrun (or_introl eq_refl)).
Defined.

(** C7. For each of the five categories, a payload whose collection is
    missing, [null] or the empty array normalizes to the empty sequence; in
    particular nothing is thrown. *)
Theorem normalize_missing_collection (c : category) (data : jsval) :
  missing_or_empty (vendor_collection c data) = true ->
  normalize c data = Returned (no_records c).
Proof.
  unfold vendor_collection. intros H.
  assert (Hk : forall K, missing_or_empty (oget (oget data "QueryResponse") K) = true ->
     (no_collection data K = Returned true) \/
     (no_collection data K = Returned false /\ collection data K = Returned (JArr []))).
  { intros K HK. unfold no_collection, collection.
    destruct data as [| |[]|x|s|l|props]; simpl in *; auto;
      try (destruct (_ || _); simpl; auto);
      try (destruct (String.eqb s ""); simpl; auto).
    destruct (own_prop props "QueryResponse") as [| |[]|x|s|l|qprops]; simpl in *; auto;
      try (destruct (_ || _); simpl; auto);
      try (destruct (String.eqb s ""); simpl; auto).
    destruct (own_prop qprops K) as [| |[]|x|s|[|]|]; simpl in *; auto; discriminate. }
  destruct c; simpl in H; apply Hk in H;
    unfold normalize, processAccounts, processCustomers, processInvoices,
           processBills, processPayments;
    destruct H as [-> | [-> ->]]; reflexivity.
Qed.

Lemma normalize_missing_collection_witness :
  normalize Invoices (JObj [("QueryResponse", JObj [("Invoice", JNull)])])
  = Returned (InvoiceList []).
Proof.
  apply (normalize_missing_collection Invoices
           (JObj [("QueryResponse", JObj [("Invoice", JNull)])])).
  reflexivity.
Defined.

End Normalization.

(** ** Strings *)

Lemma string_app_assoc (a b c : string) : (a +:+ b) +:+ c = a +:+ (b +:+ c).
Proof. induction a as [|x a IH]; simpl; [reflexivity | f_equal; exact IH]. Qed.

Lemma string_app_nil_r (a : string) : a +:+ "" = a.
Proof. induction a as [|x a IH]; simpl; [reflexivity | f_equal; exact IH]. Qed.

Lemma string_app_inv_head (a b c : string) : a +:+ b = a +:+ c -> b = c.
Proof.
  induction a as [|x a IH]; simpl; intros H; [exact H|].
  injection H as H. exact (IH H).
Qed.



(** ** The client: token refresh *)

Section ClientProperties.

Context (E : env).

Lemma refreshAccessToken_rejected (st : world) (e : AxiosError) :
  refresh_reply E st = Rejected e ->
  refreshAccessToken E st =
  (Thrown (Transport e),
   after_exchange E st (this st) (localStorage st) (refresh_request E (this st))).
Proof.
  unfold refresh_reply, refreshAccessToken, try_catch, bind, get_this, axios_post,
    exchange, refresh_form, refresh_form_of. simpl. intros ->. reflexivity.
Qed.

Lemma refreshAccessToken_resolved (st : world) (d : TokenData) :
  refresh_reply E st = Resolved d ->
  refreshAccessToken E st =
  (Returned true,
   let api' := refreshed (this st) d (clock st + elapsed E (sent st)) in
   after_exchange E st api'
     (<["qb_auth_data" := StoredAuth (accessToken api') (Some (refreshToken api'))
                                     (expires_in d) (realmId api')]> (localStorage st))
     (refresh_request E (this st))).
Proof.
  unfold refresh_reply, refreshAccessToken, try_catch, bind, get_this, axios_post,
    exchange, refresh_form, refresh_form_of. simpl. intros ->. reflexivity.
Qed.

Lemma perform_authorized_get (op : operation) :
  perform E op = authorized_get E (operation_url op).
Proof. destruct op; reflexivity. Qed.

Lemma ensureValidToken_valid (st : world) :
  (clock st < tokenExpiresAt (this st) - 300000)%Z ->
  ensureValidToken E st = (Returned tt, st).
Proof.
  intros Hlt. cbv [ensureValidToken bind Date_now get_this ret].
  replace (clock st >=? tokenExpiresAt (this st) - 300000)%Z with false; [reflexivity|].
  symmetry. rewrite Z.geb_leb. apply Z.leb_gt. lia.
Qed.

Lemma ensureValidToken_refresh (st : world) :
  (clock st >= tokenExpiresAt (this st) - 300000)%Z ->
  ensureValidToken E st =
  match refreshAccessToken E st with
  | (Returned _, st') => (Returned tt, st')
  | (Thrown e, st') => (Thrown e, st')
  end.
Proof.
  intros Hge. cbv [ensureValidToken bind Date_now get_this ret].
  replace (clock st >=? tokenExpiresAt (this st) - 300000)%Z with true; [reflexivity|].
  symmetry. rewrite Z.geb_leb. apply Z.leb_le. lia.
Qed.

(** [authorized_get] once the token check is over. *)
Lemma authorized_get_after_check (url : QuickBooksAPI -> string) (st : world) :
  authorized_get E url st =
  match ensureValidToken E st with
  | (Returned _, st') =>
      exchange E (HttpGet (url (this st')) ("Bearer " +:+ accessToken (this st')))
        (fun h => vendor_get E h (url (this st')) ("Bearer " +:+ accessToken (this st'))) st'
  | (Thrown e, st') => (Thrown e, st')
  end.
Proof.
  cbv [authorized_get try_catch bind get_this getHeaders ret axios_get throw].
  destruct (ensureValidToken E st) as [[[]|e] st']; [|reflexivity].
  destruct (exchange _ _ _ _) as [[d|e] st'']; reflexivity.
Qed.

Lemma perform_token_valid (op : operation) (st : world) :
  (clock st < tokenExpiresAt (this st) - 300000)%Z ->
  perform E op st =
  exchange E (own_request op (this st))
    (fun h => vendor_get E h (operation_url op (this st))
                         ("Bearer " +:+ accessToken (this st))) st.
Proof.
  intros Hlt. rewrite perform_authorized_get, authorized_get_after_check.
  rewrite ensureValidToken_valid by assumption. reflexivity.
Qed.

Lemma perform_refresh_rejected (op : operation) (st : world) (e : AxiosError) :
  (clock st >= tokenExpiresAt (this st) - 300000)%Z ->
  refresh_reply E st = Rejected e ->
  perform E op st =
  (Thrown (Transport e),
   after_exchange E st (this st) (localStorage st) (refresh_request E (this st))).
Proof.
  intros Hge Hrej. rewrite perform_authorized_get, authorized_get_after_check.
  rewrite ensureValidToken_refresh by assumption.
  rewrite (refreshAccessToken_rejected st e Hrej). reflexivity.
Qed.

Lemma perform_refresh_resolved (op : operation) (st : world) (d : TokenData) :
  (clock st >= tokenExpiresAt (this st) - 300000)%Z ->
  refresh_reply E st = Resolved d ->
  perform E op st =
  let api' := refreshed (this st) d (clock st + elapsed E (sent st)) in
  let st' := after_exchange E st api'
     (<["qb_auth_data" := StoredAuth (accessToken api') (Some (refreshToken api'))
                                     (expires_in d) (realmId api')]> (localStorage st))
     (refresh_request E (this st)) in
  exchange E (own_request op api')
    (fun h => vendor_get E h (operation_url op api') ("Bearer " +:+ accessToken api')) st'.
Proof.
  intros Hge Hres. rewrite perform_authorized_get, authorized_get_after_check.
  rewrite ensureValidToken_refresh by assumption.
  rewrite (refreshAccessToken_resolved st d Hres). reflexivity.
Qed.

Lemma sent_exchange {A} (req : request) (answer : list request -> reply A) (st : world) :
  sent (snd (exchange E req answer st)) = sent st ++ [req].
Proof. unfold exchange. destruct (answer _); reflexivity. Qed.

(** With more than five minutes left the operation sends its own request
    and nothing else. *)
Lemma no_refresh_above_margin (op : operation) (st : world) :
  (tokenExpiresAt (this st) - clock st > 300000)%Z ->
  sent (snd (perform E op st)) = sent st ++ [own_request op (this st)].
Proof.
  intros H. rewrite perform_token_valid by lia. apply sent_exchange.
Qed.

(** With less than five minutes left exactly one refresh request goes out,
    before the operation's own request; the latter follows only when the
    refresh succeeded, and then carries the new access token. *)
Lemma one_refresh_below_margin (op : operation) (st : world) :
  (tokenExpiresAt (this st) - clock st < 300000)%Z ->
  sent (snd (perform E op st)) =
  sent st ++ refresh_request E (this st) ::
    match refresh_reply E st with
    | Resolved d =>
        [own_request op (refreshed (this st) d (clock st + elapsed E (sent st)))]
    | Rejected _ => []
    end.
Proof.
  intros H. destruct (refresh_reply E st) as [d|e] eqn:Hr.
  - rewrite (perform_refresh_resolved op st d) by (lia || assumption).
    cbv zeta. rewrite sent_exchange. unfold after_exchange. simpl.
    rewrite <- app_assoc. reflexivity.
  - rewrite (perform_refresh_rejected op st e) by (lia || assumption). reflexivity.
Qed.

(** C4, at the margin. With exactly 300000 ms left ([expiresAt - now] is not
    below 300000) the operation nevertheless starts with a token-refresh
    request. *)
Theorem refresh_at_exact_margin (op : operation) (st : world) :
  (tokenExpiresAt (this st) - clock st = 300000)%Z ->
  exists rest,
    sent (snd (perform E op st)) = sent st ++ refresh_request E (this st) :: rest.
Proof.
  intros H. destruct (refresh_reply E st) as [d|e] eqn:Hr.
  - rewrite (perform_refresh_resolved op st d) by (lia || assumption).
    cbv zeta. rewrite sent_exchange. unfold after_exchange. simpl.
    rewrite <- app_assoc. eexists. reflexivity.
  - rewrite (perform_refresh_rejected op st e) by (lia || assumption).
    exists []. reflexivity.
Qed.

(** C5, as the code has it. When the refresh request fails, the operation
    that triggered it leaves the client's access token, refresh token and
    expiry instant as they were, sends nothing further, and throws the
    transport error of the refresh request itself, which is not an error of
    the Authentication class. *)
Theorem refresh_failure_keeps_bundle (op : operation) (st : world) (e : AxiosError) :
  (clock st >= tokenExpiresAt (this st) - 300000)%Z ->
  refresh_reply E st = Rejected e ->
  perform E op st =
    (Thrown (Transport e),
     after_exchange E st (this st) (localStorage st) (refresh_request E (this st))) /\
  ~ authentication_class (Transport e).
Proof.
  intros Hge Hrej. split.
  - apply perform_refresh_rejected; assumption.
  - intros [m Hm]. discriminate.
Qed.

(** [testConnection] does not throw in that case: it returns the failure
    as the classifier reads it, and the bundle is untouched as well. *)
Lemma testConnection_refresh_rejected (st : world) (e : AxiosError) :
  (clock st >= tokenExpiresAt (this st) - 300000)%Z ->
  refresh_reply E st = Rejected e ->
  testConnection E st =
    (Returned (ConnectionFailed (handleQuickBooksError E (Transport e))),
     after_exchange E st (this st) (localStorage st) (refresh_request E (this st))).
Proof.
  intros Hge Hrej. unfold testConnection, try_catch, bind.
  change (getCompanyInfo E) with (perform E OpCompanyInfo).
  rewrite (perform_refresh_rejected OpCompanyInfo st e Hge Hrej). reflexivity.
Qed.

(** C8. [getInvoices], [getBills] and [getPayments] query the base select
    followed by the date filter of the specification: both clauses joined
    by AND when both bounds are present, the one clause of the bound that
    is present, and no WHERE clause without bounds. *)
Theorem transaction_query_filter (t : transaction) (startDate endDate : option string) :
  getTransactions E t startDate endDate =
  authorized_get E (fun api =>
    query_url api (transaction_select t +:+ spec_where_clause startDate endDate)).
Proof.
  assert (Hq : forall base,
    date_filter base startDate endDate = base +:+ spec_where_clause startDate endDate).
  { intros base. unfold date_filter, spec_where_clause, given, present_bound, text.
    destruct startDate as [s|], endDate as [e|]; simpl;
      repeat match goal with |- context [String.eqb ?x ""] => destruct (String.eqb x "") end;
      rewrite ?string_app_nil_r; repeat (rewrite !string_app_assoc; simpl);
      reflexivity. }
  destruct t; simpl; unfold getInvoices, getBills, getPayments; rewrite Hq; reflexivity.
Qed.

(** C9. A callback request that lacks [code], [state] or [realmId] is
    answered with status 400, and no request goes to the token endpoint. *)
Theorem callback_missing_parameter (code state realmId : option string)
        (received : list request) :
  code = None \/ state = None \/ realmId = None ->
  GET E code state realmId received =
  (JsonResponse 400 "Missing required parameters", received).
Proof.
  unfold GET. intros [-> | [-> | ->]]; simpl;
    repeat match goal with |- context [given ?x] => destruct (given x) end;
    reflexivity.
Qed.

End ClientProperties.

Lemma refresh_at_exact_margin_witness :
  exists rest,
    sent (snd (perform vendor_up OpAccounts (demo_world 1300000)))
    = [] ++ refresh_request vendor_up (demo_api 1300000) :: rest.
Proof.
  apply (refresh_at_exact_margin vendor_up OpAccounts (demo_world 1300000)).
  reflexivity.
Defined.

(** The run behind it: the refresh request, then the query with the new token. *)
Example margin_run_requests :
  sent (snd (perform vendor_up OpAccounts (demo_world 1300000))) =
  [ HttpPost "https://oauth.platform.intuit.com/oauth2/v1/tokens/bearer"
             [("grant_type", "refresh_token"); ("refresh_token", "refresh-1")]
             "client-id" "client-secret";
    HttpGet ("https://sandbox-quickbooks.api.intuit.com/v3/company/4620816365"
             +:+ "/query?query=select * from Account")
            "Bearer access-2" ].
Proof. reflexivity. Qed.

Lemma refresh_failure_keeps_bundle_witness :
  perform vendor_token_down OpAccounts (demo_world 1000000) =
    (Thrown (Transport (NetworkFailure "ECONNREFUSED")),
     mkWorld (demo_api 1000000) 1000120 ∅
             [refresh_request vendor_token_down (demo_api 1000000)]) /\
  ~ authentication_class (Transport (NetworkFailure "ECONNREFUSED")).
Proof.
  apply (refresh_failure_keeps_bundle vendor_token_down OpAccounts (demo_world 1000000)
           (NetworkFailure "ECONNREFUSED")).
  - simpl. lia.
  - reflexivity.
Defined.

(** C5, as stated, fails: with the token endpoint unreachable the operation
    throws the raw network failure, not an Authentication-class error. *)
Lemma refresh_failure_not_authentication :
  ~ (forall (E : env) (op : operation) (st : world) (e : AxiosError),
       (clock st >= tokenExpiresAt (this st) - 300000)%Z ->
       refresh_reply E st = Rejected e ->
       exists err st',
         perform E op st = (Thrown err, st') /\
         this st' = this st /\ authentication_class err).
Proof.
  intros claim.
  destruct (claim vendor_token_down OpAccounts (demo_world 1000000)
              (NetworkFailure "ECONNREFUSED"))
    as (err & st' & Hrun & _ & message & Herr).
  - vm_compute. discriminate.
  - reflexivity.
  - subst err. vm_compute in Hrun. discriminate.
Qed.

Lemma callback_missing_parameter_witness :
  GET vendor_up (Some "auth-code") (Some "xyz") None [] =
  (JsonResponse 400 "Missing required parameters", []).
Proof.
  apply (callback_missing_parameter vendor_up (Some "auth-code") (Some "xyz") None []).
  right. right. reflexivity.
Defined.

(** ** The orchestrator *)

Section HoareRules.

Context {A B : Type}.

Lemma hoare_bind (P : world -> Prop) (m : M A) (k : A -> M B)
      (Q1 : outcome A -> world -> Prop) (Q : outcome B -> world -> Prop) :
  hoare P m Q1 ->
  (forall a, hoare (Q1 (Returned a)) (k a) Q) ->
  (forall e st, Q1 (Thrown e) st -> Q (Thrown e) st) ->
  hoare P (bind m k) Q.
Proof.
  intros Hm Hk He st HP. specialize (Hm st HP). unfold bind.
  destruct (m st) as [[a|e] st']; simpl in *.
  - apply Hk, Hm.
  - apply He, Hm.
Qed.

End HoareRules.

Lemma hoare_try_catch {A} (P : world -> Prop) (m : M A) (handler : thrown -> M A)
      (Q1 Q : outcome A -> world -> Prop) :
  hoare P m Q1 ->
  (forall a st, Q1 (Returned a) st -> Q (Returned a) st) ->
  (forall e, hoare (Q1 (Thrown e)) (handler e) Q) ->
  hoare P (try_catch m handler) Q.
Proof.
  intros Hm Hr Hh st HP. specialize (Hm st HP). unfold try_catch.
  destruct (m st) as [[a|e] st']; simpl in *.
  - apply Hr, Hm.
  - apply Hh, Hm.
Qed.

Section SyncProperties.

Context (E : env).

Lemma operation_url_endpoint (op : operation) (a b : QuickBooksAPI) :
  same_endpoint a b -> operation_url op a = operation_url op b.
Proof.
  intros [Hb Hr]. destruct op; unfold operation_url, query_url, company_url;
    rewrite Hb, Hr; reflexivity.
Qed.

Lemma sync_inv_refl (o : SyncOptions) (st : world) : sync_inv o st st.
Proof.
  split; [split; reflexivity | reflexivity |].
  exists []. rewrite app_nil_r. split; [reflexivity | constructor].
Qed.

(** An operation whose URL the sync may request keeps the invariant,
    whatever its outcome. *)
Lemma perform_sync_inv (o : SyncOptions) (op : operation) (st0 st : world) :
  In (operation_url op (this st0)) (sync_urls o (this st0)) ->
  sync_inv o st0 st -> sync_inv o st0 (snd (perform E op st)).
Proof.
  intros Hurl [Hend Hsnap (l & Hl & Hall)].
  assert (Hrefresh : sync_request o (this st0) (refresh_request E (this st))).
  { split; [reflexivity | eexists; reflexivity]. }
  destruct (Z_lt_ge_dec (clock st) (tokenExpiresAt (this st) - 300000)) as [Hlt|Hge].
  - rewrite perform_token_valid by assumption. unfold exchange.
    assert (Hst : sync_inv o st0
      (mkWorld (this st) (clock st + elapsed E (sent st)) (localStorage st)
               (sent st ++ [own_request op (this st)]))).
    { split; simpl; [assumption | assumption |].
      exists (l ++ [own_request op (this st)]). rewrite Hl, app_assoc. split; [reflexivity|].
      apply Forall_app; split; [assumption|]. constructor; [|constructor].
      simpl. rewrite (operation_url_endpoint op _ _ Hend). assumption. }
    destruct (vendor_get _ _ _ _); exact Hst.
  - destruct (refresh_reply E st) as [d|e] eqn:Hr.
    + rewrite (perform_refresh_resolved E op st d Hge Hr). cbv zeta.
      set (api' := refreshed (this st) d (clock st + elapsed E (sent st))).
      assert (Hend' : same_endpoint api' (this st0)) by exact Hend.
      unfold exchange, after_exchange.
      match goal with |- sync_inv _ _ (snd (match ?v with _ => _ end)) =>
        destruct v end; simpl.
      all: split; simpl; [assumption | rewrite lookup_insert_ne by discriminate; assumption |].
      all: exists (l ++ [refresh_request E (this st); own_request op api']);
        rewrite Hl, <- !app_assoc; split; [reflexivity|].
      all: apply Forall_app; split; [assumption|];
        constructor; [assumption|]; constructor; [|constructor];
        simpl; rewrite (operation_url_endpoint op _ _ Hend'); assumption.
    + rewrite (perform_refresh_rejected E op st e Hge Hr). unfold after_exchange.
      split; simpl; [assumption | assumption |].
      exists (l ++ [refresh_request E (this st)]). rewrite Hl, app_assoc. split; [reflexivity|].
      apply Forall_app; split; [assumption|]. constructor; [assumption|constructor].
Qed.

(** When the vendor rejects the operation's request, the operation throws. *)
Lemma perform_rejected (op : operation) (st0 st : world) :
  same_endpoint (this st) (this st0) ->
  (forall received authorization, exists e,
     vendor_get E received (operation_url op (this st0)) authorization = Rejected e) ->
  exists e, fst (perform E op st) = Thrown e.
Proof.
  intros Hend Hrej.
  destruct (Z_lt_ge_dec (clock st) (tokenExpiresAt (this st) - 300000)) as [Hlt|Hge].
  - rewrite perform_token_valid by assumption. unfold exchange.
    rewrite (operation_url_endpoint op _ _ Hend).
    destruct (Hrej (sent st) ("Bearer " +:+ accessToken (this st))) as [e ->].
    eexists; reflexivity.
  - destruct (refresh_reply E st) as [d|e] eqn:Hr.
    + rewrite (perform_refresh_resolved E op st d Hge Hr). cbv zeta.
      set (api' := refreshed (this st) d (clock st + elapsed E (sent st))).
      assert (Hend' : same_endpoint api' (this st0)) by exact Hend.
      unfold exchange. rewrite (operation_url_endpoint op _ _ Hend').
      match goal with |- context [vendor_get E ?h ?u ?a] =>
        destruct (Hrej h a) as [e ->] end.
      eexists; reflexivity.
    + rewrite (perform_refresh_rejected E op st e Hge Hr). eexists; reflexivity.
Qed.

Lemma category_url_allowed (o : SyncOptions) (c : category) (api : QuickBooksAPI) :
  In (operation_url (category_operation c) api) (sync_urls o api).
Proof.
  unfold sync_urls.
  destruct c; [left | do 1 right; left | do 2 right; left | do 3 right; left
              | do 4 right; left]; reflexivity.
Qed.

Lemma report_url_allowed (o : SyncOptions) (api : QuickBooksAPI) :
  In (operation_url (OpProfitAndLoss (startDate o) (endDate o)) api) (sync_urls o api).
Proof. unfold sync_urls. do 5 right. left. reflexivity. Qed.

Lemma url_cancel (api : QuickBooksAPI) (x y : string) :
  company_url api +:+ x = company_url api +:+ y -> x = y.
Proof. apply string_app_inv_head. Qed.

(** The balance-sheet and cash-flow URLs are not among those of a sync. *)
Lemma report_urls_not_allowed (o : SyncOptions) (api : QuickBooksAPI)
      (d s e : option string) :
  ~ In (operation_url (OpBalanceSheet d) api) (sync_urls o api) /\
  ~ In (operation_url (OpCashFlow s e) api) (sync_urls o api).
Proof.
  unfold sync_urls, operation_url, query_url.
  split; intros Hin; repeat (destruct Hin as [Hin|Hin]); try contradiction;
    symmetry in Hin; apply url_cancel in Hin; simpl in Hin; congruence.
Qed.


Lemma call_getAccounts : call_api E "getAccounts" [] = perform E OpAccounts.
Proof. reflexivity. Qed.

Lemma call_getCustomers : call_api E "getCustomers" [] = perform E OpCustomers.
Proof. reflexivity. Qed.

Lemma call_getInvoices : call_api E "getInvoices" [] = perform E (OpInvoices None None).
Proof. reflexivity. Qed.

Lemma call_getBills : call_api E "getBills" [] = perform E (OpBills None None).
Proof. reflexivity. Qed.

Lemma call_getPayments : call_api E "getPayments" [] = perform E (OpPayments None None).
Proof. reflexivity. Qed.

Lemma call_getProfitAndLossReport (s e : option string) :
  call_api E "getProfitAndLossReport" [s; e] = perform E (OpProfitAndLoss s e).
Proof. reflexivity. Qed.

(** The client has no method [getBalanceSheet]; its balance-sheet method is
    [getBalanceSheetReport]. *)
Lemma call_getBalanceSheet (args : list (option string)) :
  call_api E "getBalanceSheet" args
  = throw (TypeError "this.api.getBalanceSheet is not a function").
Proof. reflexivity. Qed.

Section Run.

Variable o : SyncOptions.
Variable st0 : world.

(** One [if (options.flag) { fetch; normalize; results.key = ... }] block. *)
Lemma category_step (G : Prop) (c : category) {B : Type} (f : jsval -> outcome B)
      (g : B -> gmap string result_value) (results : gmap string result_value) :
  hoare (running o st0 G)
    (if category_enabled o c then
       let! payload := perform E (category_operation c) in
       let! records := lift (f payload) in
       ret (g records)
     else ret results)
    (fun out st =>
       match out with
       | Returned _ => running o st0 (G /\ ~ (category_enabled o c = true /\
                                        fetch_rejected E (this st0) c)) st
       | Thrown _ => sync_inv o st0 st
       end).
Proof.
  intros st [Hinv HG].
  pose proof (category_url_allowed o c (this st0)) as Hurl.
  destruct (category_enabled o c) eqn:Hflag.
  - pose proof (perform_sync_inv o _ st0 st Hurl Hinv) as Hinv'.
    unfold bind, lift, ret.
    destruct (perform E (category_operation c) st) as [[payload|e] st'] eqn:Hrun;
      cbn [fst snd] in *; [|exact Hinv'].
    assert (Hnot : ~ (true = true /\ fetch_rejected E (this st0) c)).
    { intros [_ Hrej].
      destruct (perform_rejected (category_operation c) st0 st
                  (inv_endpoint _ _ _ Hinv) Hrej) as [e He].
      rewrite Hrun in He. discriminate. }
    destruct (f payload); cbn [fst snd]; [|exact Hinv'].
    split; [exact Hinv' | split; [exact HG | exact Hnot]].
  - cbn [fst snd ret].
    split; [exact Hinv | split; [exact HG | intros [Hf _]; discriminate]].
Qed.

(** The reports block: the profit-and-loss report is fetched, and the next
    call, [this.api.getBalanceSheet], is to a method the client lacks. *)
Lemma reports_step (G : Prop) (results : gmap string result_value) :
  hoare (running o st0 G)
    (if syncReports o && given (startDate o) && given (endDate o) then
       let! plReport := call_api E "getProfitAndLossReport" [startDate o; endDate o] in
       let results := <["profitAndLoss" := Report (processReport plReport)]> results in
       let! bsReport := call_api E "getBalanceSheet" [endDate o] in
       let results := <["balanceSheet" := Report (processReport bsReport)]> results in
       let! cfReport := call_api E "getCashFlowStatement" [startDate o; endDate o] in
       let results := <["cashFlow" := Report (processReport cfReport)]> results in
       ret results
     else ret results)
    (fun out st =>
       match out with
       | Returned _ => running o st0 (G /\ reports_gate o = false) st
       | Thrown _ => sync_inv o st0 st
       end).
Proof.
  intros st [Hinv HG]. fold (reports_gate o).
  destruct (reports_gate o) eqn:Hgate.
  - pose proof (report_url_allowed o (this st0)) as Hurl.
    pose proof (perform_sync_inv o _ st0 st Hurl Hinv) as Hinv'.
    rewrite call_getProfitAndLossReport. unfold bind.
    destruct (perform E _ st) as [[plReport|e] st']; cbn [fst snd] in *; [|exact Hinv'].
    rewrite call_getBalanceSheet. exact Hinv'.
  - cbn [fst snd ret]. split; [exact Hinv | split; [exact HG | reflexivity]].
Qed.

Lemma syncData_post :
  sync_post E o st0 (fst (syncData E o st0)) (snd (syncData E o st0)).
Proof.
  assert (H : hoare (running o st0 True) (syncData E o) (sync_post E o st0)).
  { unfold syncData.
    eapply hoare_try_catch with
      (Q1 := fun out st =>
         match out with
         | Returned r => sync_post E o st0 (Returned r) st
         | Thrown _ => sync_inv o st0 st
         end).
    - rewrite call_getAccounts, call_getCustomers, call_getInvoices, call_getBills,
        call_getPayments.
      eapply hoare_bind; [apply (category_step _ Accounts) | | intros e st H; exact H].
      intros r1.
      eapply hoare_bind; [apply (category_step _ Customers) | | intros e st H; exact H].
      intros r2.
      eapply hoare_bind; [apply (category_step _ Invoices) | | intros e st H; exact H].
      intros r3.
      eapply hoare_bind; [apply (category_step _ Bills) | | intros e st H; exact H].
      intros r4.
      eapply hoare_bind; [apply (category_step _ Payments) | | intros e st H; exact H].
      intros r5.
      eapply hoare_bind; [apply reports_step | | intros e st H; exact H].
      intros r6 st [Hinv HG]. unfold bind, storeData, Date_now, localStorage_setItem, ret.
      cbn [fst snd]. right. exists r6, st.
      split; [reflexivity|]. split; [exact Hinv|]. split; [reflexivity|].
      split; [tauto|]. intros c. destruct c; tauto.
    - intros a st H. exact H.
    - intros e st Hinv. left. split; [reflexivity | exact Hinv]. }
  apply H. split; [apply sync_inv_refl | exact I].
Qed.

End Run.

(** *** Requests and their answers along a sync *)

Lemma answered_app (h l1 l2 : list request) :
  answered_from E h (l1 ++ l2) <->
  answered_from E h l1 /\ answered_from E (h ++ l1) l2.
Proof.
  revert h. induction l1 as [|r l1 IH]; intros h; simpl.
  - rewrite app_nil_r. tauto.
  - rewrite IH, <- app_assoc. simpl. tauto.
Qed.

Lemma answered_middle (h h1 : list request) (r : request) (h2 : list request) :
  answered_from E h (h1 ++ r :: h2) -> resolved E (h ++ h1) r.
Proof. intros H. apply answered_app in H. destruct H as [_ [H _]]. exact H. Qed.

Lemma answered_removelast (h l : list request) :
  answered_from E h l -> answered_from E h (removelast l).
Proof.
  destruct l as [|x l] using rev_ind; [auto|].
  rewrite removelast_last. intros H. apply answered_app in H. tauto.
Qed.

Lemma stopped_app (h l l' : list request) :
  answered_from E h l -> answered_from E (h ++ l) (removelast l') ->
  answered_from E h (removelast (l ++ l')).
Proof.
  intros Hl Hl'. destruct l' as [|x l'].
  - rewrite app_nil_r. apply answered_removelast, Hl.
  - rewrite removelast_app by discriminate. apply answered_app. auto.
Qed.

Lemma resolved_not_rejected (h : list request) (r : request) :
  resolved E h r -> rejected E h r -> False.
Proof. destruct r; simpl; intros [d Hd] [e He]; congruence. Qed.

(** What an operation sends: when it returns, every request it sent was
    answered; when it throws, every one but the last. *)
Lemma perform_trace (op : operation) (st : world) :
  exists l,
    sent (snd (perform E op st)) = sent st ++ l /\
    match fst (perform E op st) with
    | Returned _ => answered_from E (sent st) l
    | Thrown _ => answered_from E (sent st) (removelast l)
    end.
Proof.
  destruct (Z_lt_ge_dec (clock st) (tokenExpiresAt (this st) - 300000)) as [Hlt|Hge].
  - rewrite perform_token_valid by assumption. unfold exchange.
    exists [own_request op (this st)].
    destruct (vendor_get E (sent st) _ _) as [data|e] eqn:Hg; simpl.
    + split; [reflexivity|]. split; [eauto | exact I].
    + split; [reflexivity | exact I].
  - destruct (refresh_reply E st) as [d|e] eqn:Hr.
    + rewrite (perform_refresh_resolved E op st d Hge Hr). cbv zeta.
      set (api' := refreshed (this st) d (clock st + elapsed E (sent st))).
      exists [refresh_request E (this st); own_request op api'].
      assert (Hpost : resolved E (sent st) (refresh_request E (this st))).
      { exists d. exact Hr. }
      unfold exchange, after_exchange. simpl.
      destruct (vendor_get E (sent st ++ [refresh_request E (this st)]) _ _)
        as [data|e] eqn:Hg; simpl; rewrite <- app_assoc.
      * split; [reflexivity|]. split; [exact Hpost|]. split; [eauto | exact I].
      * split; [reflexivity|]. split; [exact Hpost | exact I].
    + rewrite (perform_refresh_rejected E op st e Hge Hr). unfold after_exchange. simpl.
      exists [refresh_request E (this st)]. split; [reflexivity | exact I].
Qed.

(** A fetch that throws has had its last request rejected. *)
Lemma failed_fetch_rejected (op : operation) (st : world) (e : thrown) :
  fst (perform E op st) = Thrown e ->
  exists h1 r,
    sent (snd (perform E op st)) = sent st ++ h1 ++ [r] /\
    rejected E (sent st ++ h1) r.
Proof.
  destruct (Z_lt_ge_dec (clock st) (tokenExpiresAt (this st) - 300000)) as [Hlt|Hge].
  - rewrite perform_token_valid by assumption. unfold exchange.
    destruct (vendor_get E (sent st) _ _) as [data|err] eqn:Hg; simpl; [discriminate|].
    intros _. exists [], (own_request op (this st)). rewrite app_nil_r.
    split; [reflexivity|]. simpl. eauto.
  - destruct (refresh_reply E st) as [d|err] eqn:Hr.
    + rewrite (perform_refresh_resolved E op st d Hge Hr). cbv zeta.
      set (api' := refreshed (this st) d (clock st + elapsed E (sent st))).
      unfold exchange, after_exchange. simpl.
      destruct (vendor_get E (sent st ++ [refresh_request E (this st)]) _ _)
        as [data|err] eqn:Hg; simpl; [discriminate|].
      intros _. exists [refresh_request E (this st)], (own_request op api').
      rewrite <- app_assoc. split; [reflexivity|]. simpl. eauto.
    + rewrite (perform_refresh_rejected E op st err Hge Hr). unfold after_exchange. simpl.
      intros _. exists [], (refresh_request E (this st)). rewrite app_nil_r.
      split; [reflexivity|]. exists err. exact Hr.
Qed.

Lemma answered_stopped (st0 st : world) : answered_inv E st0 st -> stopped_inv E st0 st.
Proof.
  intros (l & Hl & Hans). exists l. split; [exact Hl | apply answered_removelast, Hans].
Qed.

(** One category block, seen from the answers to its requests. *)
Lemma trace_step (st0 : world) (b : bool) (op : operation) {B : Type}
      (f : jsval -> outcome B) (g : B -> gmap string result_value)
      (results : gmap string result_value) :
  hoare (answered_inv E st0)
    (if b then
       let! payload := perform E op in
       let! records := lift (f payload) in
       ret (g records)
     else ret results)
    (fun out st =>
       match out with
       | Returned _ => answered_inv E st0 st
       | Thrown _ => stopped_inv E st0 st
       end).
Proof.
  intros st Hinv. destruct b; [|exact Hinv].
  destruct Hinv as (l & Hl & Hans).
  destruct (perform_trace op st) as (l' & Hl' & Hpost).
  unfold bind, lift, ret.
  destruct (perform E op st) as [[payload|e] st'] eqn:Hrun; cbn [fst snd] in *.
  - assert (Hinv' : answered_inv E st0 st').
    { exists (l ++ l'). rewrite Hl', Hl, app_assoc. split; [reflexivity|].
      apply answered_app. split; [exact Hans|]. rewrite <- Hl. exact Hpost. }
    destruct (f payload); cbn [fst snd]; [exact Hinv' | apply answered_stopped, Hinv'].
  - exists (l ++ l'). rewrite Hl', Hl, app_assoc. split; [reflexivity|].
    apply stopped_app; [exact Hans|]. rewrite <- Hl. exact Hpost.
Qed.

Lemma trace_reports (o : SyncOptions) (st0 : world) (results : gmap string result_value) :
  hoare (answered_inv E st0)
    (if syncReports o && given (startDate o) && given (endDate o) then
       let! plReport := call_api E "getProfitAndLossReport" [startDate o; endDate o] in
       let results := <["profitAndLoss" := Report (processReport plReport)]> results in
       let! bsReport := call_api E "getBalanceSheet" [endDate o] in
       let results := <["balanceSheet" := Report (processReport bsReport)]> results in
       let! cfReport := call_api E "getCashFlowStatement" [startDate o; endDate o] in
       let results := <["cashFlow" := Report (processReport cfReport)]> results in
       ret results
     else ret results)
    (fun out st =>
       match out with
       | Returned _ => answered_inv E st0 st
       | Thrown _ => stopped_inv E st0 st
       end).
Proof.
  intros st Hinv.
  destruct (syncReports o && given (startDate o) && given (endDate o)); [|exact Hinv].
  destruct Hinv as (l & Hl & Hans).
  rewrite call_getProfitAndLossReport.
  destruct (perform_trace (OpProfitAndLoss (startDate o) (endDate o)) st)
    as (l' & Hl' & Hpost).
  unfold bind.
  destruct (perform E _ st) as [[plReport|e] st'] eqn:Hrun; cbn [fst snd] in *.
  - rewrite call_getBalanceSheet. cbn [fst snd throw].
    apply answered_stopped. exists (l ++ l'). rewrite Hl', Hl, app_assoc.
    split; [reflexivity|]. apply answered_app. split; [exact Hans|].
    rewrite <- Hl. exact Hpost.
  - exists (l ++ l'). rewrite Hl', Hl, app_assoc. split; [reflexivity|].
    apply stopped_app; [exact Hans|]. rewrite <- Hl. exact Hpost.
Qed.

(** In every sync at most the last request went unanswered, and in a sync
    that succeeds none did. *)
Lemma syncData_trace (o : SyncOptions) (st : world) :
  stopped_inv E st (snd (syncData E o st)) /\
  (forall results, fst (syncData E o st) = Returned (sync_success results) ->
                   answered_inv E st (snd (syncData E o st))).
Proof.
  assert (H : hoare (answered_inv E st) (syncData E o)
    (fun out w => stopped_inv E st w /\
       (forall results, out = Returned (sync_success results) -> answered_inv E st w))).
  { unfold syncData.
    eapply hoare_try_catch with
      (Q1 := fun out w =>
         match out with
         | Returned _ => answered_inv E st w
         | Thrown _ => stopped_inv E st w
         end).
    - rewrite call_getAccounts, call_getCustomers, call_getInvoices, call_getBills,
        call_getPayments.
      eapply hoare_bind; [apply trace_step | | intros e w H; exact H]. intros r1.
      eapply hoare_bind; [apply trace_step | | intros e w H; exact H]. intros r2.
      eapply hoare_bind; [apply trace_step | | intros e w H; exact H]. intros r3.
      eapply hoare_bind; [apply trace_step | | intros e w H; exact H]. intros r4.
      eapply hoare_bind; [apply trace_step | | intros e w H; exact H]. intros r5.
      eapply hoare_bind; [apply trace_reports | | intros e w H; exact H]. intros r6.
      intros w Hinv. unfold bind, storeData, Date_now, localStorage_setItem, ret.
      cbn [fst snd]. exact Hinv.
    - intros a w Hinv. split; [apply answered_stopped, Hinv | intros _ _; exact Hinv].
    - intros e w Hinv. split; [exact Hinv | intros results Hres; discriminate]. }
  apply H. exists []. rewrite app_nil_r. split; [reflexivity | exact I].
Qed.

(** C6. When, during a sync, a fetch fails, that is, the vendor rejects a
    request the sync sends (the query of an enabled category, or the token
    refresh that fetch triggered), the sync returns
    [{ success: false, error }] without any data, whatever was fetched
    before, and the stored snapshot is what it was before the sync. *)
Theorem sync_aborts_on_failed_fetch (o : SyncOptions) (st : world)
        (h1 : list request) (r : request) (h2 : list request) :
  sent (snd (syncData E o st)) = sent st ++ h1 ++ r :: h2 ->
  rejected E (sent st ++ h1) r ->
  fst (syncData E o st) =
    Returned {| success := false; data := None;
                error := Some "Failed to sync data from QuickBooks" |} /\
  localStorage (snd (syncData E o st)) !! "quickbooks_data"
  = localStorage st !! "quickbooks_data".
Proof.
  intros Hsent Hrej.
  destruct (syncData_post o st) as [[Hout Hinv] | (res & st1 & Hout & _ & _ & _ & _)].
  - split; [exact Hout | apply (inv_snapshot _ _ _ Hinv)].
  - exfalso.
    destruct (proj2 (syncData_trace o st) res Hout) as (l & Hl & Hans).
    rewrite Hsent in Hl. apply app_inv_head in Hl. subst l.
    exact (resolved_not_rejected _ _ (answered_middle _ _ _ _ Hans) Hrej).
Qed.

Lemma allowed_get (o : SyncOptions) (api : QuickBooksAPI) (l : list request)
      (url authorization : string) :
  Forall (sync_request o api) l -> In (HttpGet url authorization) l ->
  In url (sync_urls o api).
Proof.
  intros Hall Hin. rewrite Forall_forall in Hall.
  exact (Hall _ (proj2 (list_elem_of_In _ _) Hin)).
Qed.

(** C1, on the code. With the reports flag set and both dates given, the
    sync never succeeds: after the profit-and-loss report it calls
    [getBalanceSheet], which the client does not have.  It returns the
    failure result, stores nothing, and sends neither the balance-sheet
    nor the cash-flow request. *)
Theorem sync_reports_abort (o : SyncOptions) (st : world) :
  syncReports o = true -> given (startDate o) = true -> given (endDate o) = true ->
  fst (syncData E o st) = Returned sync_failure /\
  localStorage (snd (syncData E o st)) !! "quickbooks_data"
  = localStorage st !! "quickbooks_data" /\
  exists l, sent (snd (syncData E o st)) = sent st ++ l /\
    forall d s e authorization,
      ~ In (HttpGet (operation_url (OpBalanceSheet d) (this st)) authorization) l /\
      ~ In (HttpGet (operation_url (OpCashFlow s e) (this st)) authorization) l.
Proof.
  intros Hr Hs He.
  destruct (syncData_post o st) as [[Hout Hinv] | (r & st1 & _ & _ & _ & Hgate & _)].
  - split; [exact Hout|]. split; [apply (inv_snapshot _ _ _ Hinv)|].
    destruct (inv_sent _ _ _ Hinv) as (l & Hl & Hall). exists l. split; [exact Hl|].
    intros d s e authorization.
    destruct (report_urls_not_allowed o (this st) d s e) as [Hbs Hcf].
    split; intros Hin; [apply Hbs | apply Hcf]; eapply allowed_get; eassumption.
  - unfold reports_gate in Hgate. rewrite Hr, Hs, He in Hgate. discriminate.
Qed.


End SyncProperties.

Lemma sync_aborts_on_failed_fetch_witness :
  let run := syncData vendor_throttled everything_selected (demo_world 9000000) in
  fst run = Returned {| success := false; data := None;
                        error := Some "Failed to sync data from QuickBooks" |} /\
  localStorage (snd run) !! "quickbooks_data" = (∅ : gmap string stored) !! "quickbooks_data".
Proof.
  apply (sync_aborts_on_failed_fetch vendor_throttled everything_selected
           (demo_world 9000000)
           [own_request OpAccounts (demo_api 9000000)]
           (own_request OpCustomers (demo_api 9000000)) []).
  - reflexivity.
  - simpl. eexists. reflexivity.
Defined.

(** The run behind it: every category is enabled and the vendor would
    answer a second Customer request, yet the sync ends after the rejected
    one. *)
Example throttled_sync_run :
  sent (snd (syncData vendor_throttled everything_selected (demo_world 9000000)))
  = [own_request OpAccounts (demo_api 9000000);
     own_request OpCustomers (demo_api 9000000)] /\
  vendor_get vendor_throttled
    [own_request OpAccounts (demo_api 9000000); own_request OpCustomers (demo_api 9000000)]
    (operation_url OpCustomers (demo_api 9000000)) "Bearer access-1"
  = Resolved demo_accounts.
Proof. split; reflexivity. Qed.

(** A refresh that fails is such a rejected request as well: with the token
    expired and the token endpoint down, the sync ends after the refresh. *)
Example token_down_sync_run :
  syncData vendor_token_down everything_selected (demo_world 1000000)
  = (Returned sync_failure,
     mkWorld (demo_api 1000000) 1000120 ∅
             [refresh_request vendor_token_down (demo_api 1000000)]).
Proof. reflexivity. Qed.

Lemma sync_reports_abort_witness :
  let o := reports_only (Some "2024-01-01") (Some "2024-06-01") in
  let st := demo_world 9000000 in
  fst (syncData vendor_up o st) = Returned sync_failure /\
  localStorage (snd (syncData vendor_up o st)) !! "quickbooks_data"
  = localStorage st !! "quickbooks_data" /\
  exists l, sent (snd (syncData vendor_up o st)) = sent st ++ l /\
    forall d s e authorization,
      ~ In (HttpGet (operation_url (OpBalanceSheet d) (this st)) authorization) l /\
      ~ In (HttpGet (operation_url (OpCashFlow s e) (this st)) authorization) l.
Proof.
  intros o st. apply (sync_reports_abort vendor_up o st); reflexivity.
Defined.


(** The failing run of C1: one request, the profit-and-loss report; no
    balance-sheet or cash-flow request, no data, nothing stored. *)
Example sync_reports_run :
  syncData vendor_up (reports_only (Some "2024-01-01") (Some "2024-06-01"))
           (demo_world 9000000) =
  (Returned sync_failure,
   mkWorld (demo_api 9000000) 1000120 ∅
     [HttpGet ("https://sandbox-quickbooks.api.intuit.com/v3/company/4620816365"
               +:+ "/reports/ProfitAndLoss?start_date=2024-01-01&end_date=2024-06-01")
              "Bearer access-1"]).
Proof. reflexivity. Qed.

(** Scenario A: only accounts enabled, a payload with two accounts. *)
Example sync_accounts_only :
  let o := {| syncAccounts := true; syncCustomers := false; syncInvoices := false;
              syncBills := false; syncPayments := false; syncReports := false;
              startDate := Some "2024-01-01"; endDate := Some "2024-06-01" |} in
  exists a1 a2 results,
    fst (syncData vendor_up o (demo_world 9000000)) = Returned (sync_success results) /\
    results !! "accounts" = Some (AccountList [a1; a2]) /\
    results !! "customers" = None.
Proof. intros o. do 3 eexists. repeat split; reflexivity. Qed.

(** Scenario C: reports flag set, [endDate] left out: no request at all. *)
Example sync_reports_without_end_date :
  sent (snd (syncData vendor_up (reports_only (Some "2024-01-01") None)
                      (demo_world 9000000))) = [].
Proof. reflexivity. Qed.

(** * Further properties of the code *)

(** ** Normalization *)

Section NormalizationShape.

Ltac inv_binds :=
  repeat match goal with
  | H : obind _ _ = Returned _ |- _ =>
      let a := fresh "v" in let Ha := fresh "Hv" in
      apply obind_Returned in H; destruct H as (a & Ha & H)
  | H : (if ?c then _ else _) = Returned _ |- _ =>
      let Hc := fresh "Hc" in destruct c eqn:Hc
  | H : (let _ := _ in _) = Returned _ |- _ => cbv zeta in H
  | H : Returned _ = Returned _ |- _ => injection H as H; subst
  end.

Lemma prop_Returned (v : jsval) (k : string) (x : jsval) :
  prop v k = Returned x -> x = oget v k /\ nullish v = false.
Proof. destruct v; simpl; intros H; try discriminate; injection H as <-; auto. Qed.

Lemma prop_not_nullish (v : jsval) (k : string) :
  nullish v = false -> prop v k = Returned (oget v k).
Proof. destruct v; simpl; intros H; try discriminate; reflexivity. Qed.

Lemma opt_prop_total (v : jsval) (k : string) : opt_prop v k = Returned (oget v k).
Proof. destruct v; reflexivity. Qed.

Lemma mapM_Forall2 {A B} (f : A -> outcome B) (l : list A) (rs : list B) :
  mapM f l = Returned rs -> Forall2 (fun x r => f x = Returned r) l rs.
Proof.
  revert rs. induction l as [|x l IH]; simpl; intros rs H.
  - injection H as <-. constructor.
  - destruct (f x) as [y|e] eqn:Hfx; simpl in H; [|discriminate].
    destruct (mapM f l) as [ys|e] eqn:Hl; simpl in H; [|discriminate].
    injection H as <-. constructor; [exact Hfx | apply IH; reflexivity].
Qed.

Lemma mapM_returns {A B} (f : A -> outcome B) (l : list A) :
  (exists rs, mapM f l = Returned rs) <-> Forall (fun x => exists r, f x = Returned r) l.
Proof.
  induction l as [|x l IH]; simpl.
  - split; [constructor | eauto].
  - split.
    + intros [rs H]. destruct (f x) as [y|e] eqn:Hfx; simpl in H; [|discriminate].
      destruct (mapM f l) as [ys|e] eqn:Hl; simpl in H; [|discriminate].
      constructor; [eauto | apply IH; eauto].
    + intros H. inversion H as [|? ? [y Hy] Hl]; subst.
      apply IH in Hl. destruct Hl as [ys Hys]. rewrite Hy, Hys. simpl. eauto.
Qed.

(** The guard never throws, and when it lets the payload through the
    collection is the one [vendor_collection] names. *)
Lemma no_collection_cases (data : jsval) (K : string) :
  let coll := oget (oget data "QueryResponse") K in
  (no_collection data K = Returned true /\ truthy coll = false) \/
  (no_collection data K = Returned false /\ collection data K = Returned coll /\
   truthy coll = true).
Proof.
  unfold no_collection, collection.
  destruct data as [| |[]|x|s|l|props]; simpl; auto;
    try (destruct (_ || _); simpl; auto);
    try (destruct (String.eqb s ""); simpl; auto).
  destruct (own_prop props "QueryResponse") as [| |[]|x|s|l|qprops]; simpl; auto;
    try (destruct (_ || _); simpl; auto);
    try (destruct (String.eqb s ""); simpl; auto).
  destruct (truthy (own_prop qprops K)) eqn:Ht; simpl; auto.
Qed.

(** What the common frame of the five [process*] functions computes. *)
Lemma process_frame {B} (K : string) (data : jsval) (f : jsval -> outcome B) :
  (let* g := no_collection data K in
   if g then Returned [] else
   let* arr := collection data K in js_map arr f)
  = let coll := oget (oget data "QueryResponse") K in
    if truthy coll then js_map coll f else Returned [].
Proof.
  cbv zeta. destruct (no_collection_cases data K) as [[-> ->] | (-> & -> & ->)];
    reflexivity.
Qed.

Lemma js_map_truthy {B} (v : jsval) (f : jsval -> outcome B) (rs : list B) :
  (if truthy v then js_map v f else Returned []) = Returned rs ->
  mapM f (elements v) = Returned rs.
Proof.
  destruct (truthy v) eqn:Ht.
  - destruct v; simpl in *; try discriminate; auto.
  - destruct v; simpl in *; try discriminate; auto.
Qed.

Lemma process_Forall2 {B} (K : string) (data : jsval) (f : jsval -> outcome B)
      (rs : list B) :
  (let* g := no_collection data K in
   if g then Returned [] else
   let* arr := collection data K in js_map arr f) = Returned rs ->
  Forall2 (fun e r => f e = Returned r) (elements (oget (oget data "QueryResponse") K)) rs.
Proof.
  rewrite process_frame. cbv zeta. intros H.
  apply mapM_Forall2, js_map_truthy, H.
Qed.

Lemma Forall2_map_eq {A B C} (g : A -> C) (h : B -> C) (P : A -> B -> Prop)
      (l : list A) (rs : list B) :
  (forall x r, P x r -> h r = g x) -> Forall2 P l rs -> map h rs = map g l.
Proof.
  intros HP H. induction H as [|x r l rs Hxr _ IH]; simpl; [reflexivity|].
  rewrite (HP _ _ Hxr), IH. reflexivity.
Qed.

(** X1. The records a category normalizes to are one per element of the
    vendor collection, in the vendor's order, each carrying the [Id] of its
    element. *)
Theorem normalize_ids_in_order (c : category) (data : jsval) (v : result_value) :
  normalize c data = Returned v ->
  record_ids v = map (fun e => oget e "Id") (elements (vendor_collection c data)).
Proof.
  unfold vendor_collection.
  destruct c; simpl; unfold omap; intros H; apply obind_Returned in H;
    destruct H as (recs & Hrecs & H); injection H as <-; simpl;
    apply process_Forall2 in Hrecs;
    (eapply Forall2_map_eq; [|exact Hrecs]);
    intros e r Hr; cbv beta in Hr;
    apply obind_Returned in Hr; destruct Hr as (i & Hi & Hr);
    apply prop_Returned in Hi; destruct Hi as [-> _];
    inv_binds; reflexivity.
Qed.

Lemma Forall_forallb {A} (P : A -> Prop) (p : A -> bool) (l : list A) :
  (forall x, P x <-> p x = true) -> (Forall P l <-> forallb p l = true).
Proof.
  intros HP. induction l as [|x l IH]; simpl.
  - split; [reflexivity | constructor].
  - rewrite andb_true_iff, <- IH, <- HP. split.
    + intros H. inversion H; subst. auto.
    + intros [Hx Hl]. constructor; assumption.
Qed.

Lemma frame_returns {B} (W : list B -> result_value) (ok : jsval -> bool)
      (F : jsval -> outcome B) (coll : jsval) :
  (forall e, (exists r, F e = Returned r) <-> ok e = true) ->
  (exists v, omap W (if truthy coll then js_map coll F else Returned []) = Returned v) <->
  (if truthy coll then
     match coll with JArr es => forallb ok es | _ => false end
   else true) = true.
Proof.
  intros HF. unfold omap. destruct (truthy coll) eqn:Ht.
  - destruct coll as [| |b|x|s|es|props]; simpl in *; try discriminate;
      try (split; [intros [v H]; discriminate | discriminate]).
    rewrite <- (Forall_forallb _ ok es HF), <- mapM_returns. split.
    + intros [v H]. destruct (mapM F es); simpl in H; [eauto | discriminate].
    + intros [rs ->]. simpl. eauto.
  - simpl. split; eauto.
Qed.

Lemma line_items_return {B} (ln : jsval) (g : jsval -> outcome B) :
  (forall l, (exists r, g l = Returned r) <-> negb (nullish l) = true) ->
  (exists rs, js_map (js_or ln (JArr [])) g = Returned rs) <-> lines_ok ln = true.
Proof.
  intros Hg. unfold js_or, lines_ok. destruct (truthy ln) eqn:Ht.
  - destruct ln as [| |b|x|s|ls|props]; simpl in *; try discriminate;
      try (split; [intros [v H]; discriminate | discriminate]).
    rewrite <- (Forall_forallb _ _ ls Hg). apply mapM_returns.
  - simpl. split; eauto.
Qed.

Lemma invoice_line_returns (l : jsval) :
  (exists r,
     (let* description := prop l "Description" in
      let* amount := prop l "Amount" in
      let* quantity := prop l "Quantity" in
      let* unitPrice := prop l "UnitPrice" in
      Returned (InvoiceLine.mk description amount quantity unitPrice)) = Returned r)
  <-> negb (nullish l) = true.
Proof.
  destruct l; simpl; split; intros H; eauto; try discriminate;
    destruct H; discriminate.
Qed.

Lemma bill_line_returns (l : jsval) :
  (exists r,
     (let* description := prop l "Description" in
      let* amount := prop l "Amount" in
      Returned (BillLine.mk description amount)) = Returned r)
  <-> negb (nullish l) = true.
Proof.
  destruct l; simpl; split; intros H; eauto; try discriminate;
    destruct H; discriminate.
Qed.

(** X2. Normalization returns exactly on payloads whose collection is falsy
    or an array free of [null] and [undefined] elements (for invoices and
    bills, each element's [Line] being falsy or such an array as well); on
    every other payload it throws. *)
Theorem normalize_returns_iff (c : category) (data : jsval) :
  (exists v, normalize c data = Returned v) <->
  collection_ok c (vendor_collection c data) = true.
Proof.
  unfold vendor_collection, collection_ok.
  destruct c; unfold normalize, processAccounts, processCustomers, processInvoices,
    processBills, processPayments, vendor_key;
    rewrite process_frame; cbv zeta; apply frame_returns; intros e.
  - destruct e; simpl; split; intros H; eauto; try discriminate; destruct H; discriminate.
  - destruct e; simpl; rewrite ?opt_prop_total; simpl; split; intros H; eauto;
      try discriminate; destruct H; discriminate.
  - unfold element_ok, getInvoiceStatus.
    destruct e as [| |b|x|s|es|props]; simpl;
      try (split; [intros [r H]; discriminate | discriminate]);
      try (split; eauto; fail).
    rewrite !opt_prop_total. simpl.
    rewrite <- (line_items_return (own_prop props "Line") _ invoice_line_returns).
    destruct (strict_eq (own_prop props "Balance") (JNum 0)); simpl;
      [|destruct (strict_eq (own_prop props "Balance") (own_prop props "TotalAmt")); simpl];
      (destruct (js_map _ _) as [ls|err]; simpl;
       split; intros [r H]; [eauto | eauto | discriminate | discriminate]).
  - unfold element_ok.
    destruct e as [| |b|x|s|es|props]; simpl;
      try (split; [intros [r H]; discriminate | discriminate]);
      try (split; eauto; fail).
    rewrite !opt_prop_total. simpl.
    rewrite <- (line_items_return (own_prop props "Line") _ bill_line_returns).
    destruct (js_map _ _) as [ls|err]; simpl;
      split; intros [r H]; [eauto | eauto | discriminate | discriminate].
  - destruct e; simpl; rewrite ?opt_prop_total; simpl; split; intros H; eauto;
      try discriminate; destruct H; discriminate.
Qed.

Lemma Forall2_weaken {A B} (P Q : A -> B -> Prop) (l : list A) (rs : list B) :
  (forall x r, P x r -> Q x r) -> Forall2 P l rs -> Forall2 Q l rs.
Proof. intros HPQ H. induction H; constructor; auto. Qed.

Lemma line_items_mapM {B} (ln : jsval) (g : jsval -> outcome B) (rs : list B) :
  js_map (js_or ln (JArr [])) g = Returned rs -> mapM g (elements ln) = Returned rs.
Proof.
  unfold js_or. destruct (truthy ln) eqn:Ht.
  - destruct ln; simpl in *; try discriminate; auto.
  - destruct ln; simpl in *; try discriminate; auto.
Qed.

(** X3. The line items of a normalized invoice or bill are one per element
    of the vendor's [Line] array, in order, each carrying the [Amount] of
    its line; a missing [Line] gives no line items. *)
Theorem line_items_in_order (data : jsval) :
  (forall recs, processInvoices data = Returned recs ->
     Forall2 (fun e r => map InvoiceLine.amount (Invoice.lineItems r)
                         = map (fun l => oget l "Amount") (elements (oget e "Line")))
             (elements (vendor_collection Invoices data)) recs) /\
  (forall recs, processBills data = Returned recs ->
     Forall2 (fun e r => map BillLine.amount (Bill.lineItems r)
                         = map (fun l => oget l "Amount") (elements (oget e "Line")))
             (elements (vendor_collection Bills data)) recs).
Proof.
  unfold vendor_collection. split; intros recs H; apply process_Forall2 in H;
    (eapply Forall2_weaken; [|exact H]); intros e r Hr; cbv beta in Hr;
    unfold getInvoiceStatus in Hr; inv_binds; simpl;
    match goal with
    | Hl : prop e "Line" = Returned ?ln, Hm : js_map (js_or ?ln _) _ = Returned _ |- _ =>
        apply prop_Returned in Hl; destruct Hl as [-> _];
        apply line_items_mapM, mapM_Forall2 in Hm;
        (eapply Forall2_map_eq; [|exact Hm])
    end;
    intros l it Hit; cbv beta in Hit; inv_binds; simpl;
    match goal with
    | Ha : prop l "Amount" = Returned _ |- _ =>
        apply prop_Returned in Ha; destruct Ha as [-> _]; reflexivity
    end.
Qed.

End NormalizationShape.

(** ** The client *)

Section ClientFurther.

Context (E : env).

Lemma exchange_keeps {A} (req : request) (answer : list request -> reply A) (st : world) :
  this (snd (exchange E req answer st)) = this st /\
  localStorage (snd (exchange E req answer st)) = localStorage st /\
  clock (snd (exchange E req answer st)) = (clock st + elapsed E (sent st))%Z.
Proof. unfold exchange. destruct (answer _); simpl; auto. Qed.

(** X4. When a due refresh succeeds, the client holds the new access token
    and an expiry of the response instant plus the reported lifetime, realm
    and base URL are untouched, and [localStorage] holds under "qb_auth_data"
    the very bundle the client now has; this is so whether or not the
    operation's own request then succeeds. *)
Theorem refresh_success_updates_bundle (op : operation) (st : world) (d : TokenData) :
  (clock st >= tokenExpiresAt (this st) - 300000)%Z ->
  refresh_reply E st = Resolved d ->
  let st' := snd (perform E op st) in
  accessToken (this st') = access_token d /\
  realmId (this st') = realmId (this st) /\
  baseUrl (this st') = baseUrl (this st) /\
  tokenExpiresAt (this st') = (clock st + elapsed E (sent st) + expires_in d * 1000)%Z /\
  localStorage st' !! "qb_auth_data"
  = Some (StoredAuth (accessToken (this st')) (Some (refreshToken (this st')))
                     (expires_in d) (realmId (this st'))).
Proof.
  intros Hge Hres. cbv zeta. rewrite (perform_refresh_resolved E op st d Hge Hres).
  cbv zeta.
  match goal with |- context [exchange E ?r ?a ?w] =>
    destruct (exchange_keeps r a w) as (-> & -> & _) end.
  unfold after_exchange, refreshed. simpl. rewrite lookup_insert_eq. auto.
Qed.

(** X5. A refresh response without a refresh token (left out, or empty)
    leaves the client's refresh token as it was; one with a refresh token
    replaces it. *)
Theorem refresh_token_rotation (op : operation) (st : world) (d : TokenData) :
  (clock st >= tokenExpiresAt (this st) - 300000)%Z ->
  refresh_reply E st = Resolved d ->
  let st' := snd (perform E op st) in
  (refresh_token d = None \/ refresh_token d = Some "" ->
   refreshToken (this st') = refreshToken (this st)) /\
  (forall s, refresh_token d = Some s -> s <> "" -> refreshToken (this st') = s).
Proof.
  intros Hge Hres. cbv zeta. rewrite (perform_refresh_resolved E op st d Hge Hres).
  cbv zeta.
  match goal with |- context [exchange E ?r ?a ?w] =>
    destruct (exchange_keeps r a w) as (-> & _ & _) end.
  unfold after_exchange, refreshed, str_or. simpl. split.
  - intros [-> | ->]; reflexivity.
  - intros s -> Hs. destruct (String.eqb_spec s ""); [contradiction | reflexivity].
Qed.

(** X6. The first request an operation sends is the token refresh exactly
    when at most 300000 ms are left before expiry. *)
Theorem refresh_iff_within_margin (op : operation) (st : world) :
  sent (snd (perform E op st)) !! length (sent st) = Some (refresh_request E (this st))
  <-> (tokenExpiresAt (this st) - clock st <= 300000)%Z.
Proof.
  destruct (Z_lt_ge_dec (clock st) (tokenExpiresAt (this st) - 300000)) as [Hlt|Hge].
  - rewrite perform_token_valid by assumption. rewrite sent_exchange.
    rewrite list_lookup_middle by reflexivity. split; [|lia].
    unfold own_request, refresh_request. intros H. discriminate.
  - split; [lia|]. intros _.
    destruct (refresh_reply E st) as [d|e] eqn:Hr.
    + rewrite (perform_refresh_resolved E op st d Hge Hr). cbv zeta.
      rewrite sent_exchange. unfold after_exchange. simpl.
      rewrite <- app_assoc. simpl. apply list_lookup_middle. reflexivity.
    + rewrite (perform_refresh_rejected E op st e Hge Hr). unfold after_exchange. simpl.
      apply list_lookup_middle. reflexivity.
Qed.

(** X7. After an operation that refreshed the token, the next operation
    sends no second refresh, only its own request under the new access
    token, provided the first operation's request took less than the new
    lifetime minus the five-minute margin. *)
Theorem refreshed_token_reused (op1 op2 : operation) (st : world) (d : TokenData) :
  (clock st >= tokenExpiresAt (this st) - 300000)%Z ->
  refresh_reply E st = Resolved d ->
  (elapsed E (sent st ++ [refresh_request E (this st)])
   < expires_in d * 1000 - 300000)%Z ->
  let st1 := snd (perform E op1 st) in
  sent (snd (perform E op2 st1))
  = sent st1 ++ [HttpGet (operation_url op2 (this st1)) ("Bearer " +:+ access_token d)].
Proof.
  intros Hge Hres Hfast. cbv zeta.
  assert (Hst1 : this (snd (perform E op1 st))
                 = refreshed (this st) d (clock st + elapsed E (sent st)) /\
                 clock (snd (perform E op1 st))
                 = (clock st + elapsed E (sent st)
                    + elapsed E (sent st ++ [refresh_request E (this st)]))%Z).
  { rewrite (perform_refresh_resolved E op1 st d Hge Hres). cbv zeta.
    match goal with |- context [exchange E ?r ?a ?w] =>
      destruct (exchange_keeps r a w) as (-> & _ & ->) end.
    unfold after_exchange. simpl. auto. }
  destruct Hst1 as [Hthis Hclock].
  rewrite (perform_token_valid E op2).
  - rewrite sent_exchange. unfold own_request. rewrite Hthis. reflexivity.
  - rewrite Hthis, Hclock. unfold refreshed. simpl. lia.
Qed.

(** X8. A client used at the instant it was constructed sends its request
    without a refresh exactly when [expiresIn] was left out, was 0 (both
    give the default of one hour), or exceeds 300 seconds. *)
Theorem fresh_client_first_call (access refresh realm : string) (expiresIn : option Z)
        (op : operation) (st : world) :
  this st = new_QuickBooksAPI E access refresh realm expiresIn (clock st) ->
  sent (snd (perform E op st)) = sent st ++ [own_request op (this st)]
  <-> match expiresIn with
      | Some n => n = 0%Z \/ (n * 1000 > 300000)%Z
      | None => True
      end.
Proof.
  intros Hnew.
  assert (Hexp : tokenExpiresAt (this st)
                 = match expiresIn with
                   | Some n => if (n =? 0)%Z then clock st + 3600 * 1000
                               else clock st + n * 1000
                   | None => clock st + 3600 * 1000
                   end%Z).
  { rewrite Hnew. reflexivity. }
  destruct (Z_lt_ge_dec (clock st) (tokenExpiresAt (this st) - 300000)) as [Hlt|Hge].
  - rewrite perform_token_valid by assumption. rewrite sent_exchange.
    split; [|reflexivity]. intros _. rewrite Hexp in Hlt.
    destruct expiresIn as [n|]; [|exact I].
    destruct (Z.eqb_spec n 0); [left; assumption | right; lia].
  - split.
    + intros Hsent. exfalso.
      assert (Hfirst : sent (snd (perform E op st)) !! length (sent st)
                       = Some (refresh_request E (this st))).
      { destruct (refresh_reply E st) as [d|e] eqn:Hr.
        - rewrite (perform_refresh_resolved E op st d Hge Hr). cbv zeta.
          rewrite sent_exchange. unfold after_exchange. simpl.
          rewrite <- app_assoc. simpl. apply list_lookup_middle. reflexivity.
        - rewrite (perform_refresh_rejected E op st e Hge Hr). unfold after_exchange.
          simpl. apply list_lookup_middle. reflexivity. }
      rewrite Hsent, list_lookup_middle in Hfirst by reflexivity.
      discriminate.
    + intros Hok. exfalso. rewrite Hexp in Hge.
      destruct expiresIn as [n|]; [|lia].
      destruct (Z.eqb_spec n 0); [lia|]. destruct Hok; [contradiction | lia].
Qed.

(** X9. [testConnection] never throws: it returns success exactly when
    [getCompanyInfo] returns, otherwise the failure that the classifier
    makes of what [getCompanyInfo] threw; it sends what [getCompanyInfo]
    sends. *)
Theorem testConnection_never_throws (st : world) :
  exists r,
    fst (testConnection E st) = Returned r /\
    (r = ConnectionOk <-> exists data, fst (getCompanyInfo E st) = Returned data) /\
    (forall e, fst (getCompanyInfo E st) = Thrown e ->
               r = ConnectionFailed (handleQuickBooksError E e)) /\
    snd (testConnection E st) = snd (getCompanyInfo E st).
Proof.
  unfold testConnection, try_catch, bind, ret.
  destruct (getCompanyInfo E st) as [[data|e] st']; simpl.
  - exists ConnectionOk. repeat split; eauto. intros e H. discriminate.
  - eexists. split; [reflexivity|]. split; [|split; [|reflexivity]].
    + split; [discriminate | intros [data H]; discriminate].
    + intros e' H. injection H as <-. reflexivity.
Qed.

End ClientFurther.

(** ** The orchestrator *)

Section SyncFurther.

Context (E : env).

(** One category block, seen from the mapping it returns. *)
Lemma result_step (o : SyncOptions) (G : Prop) (c : category) {B : Type}
      (W : list B -> result_value) (f : jsval -> outcome (list B))
      (m : M jsval) (k : string) (results : gmap string result_value) :
  (forall payload, normalize c payload = omap W (f payload)) ->
  k = category_key c ->
  hoare (fun _ => G)
    (if category_enabled o c then
       let! payload := m in
       let! records := lift (f payload) in
       ret (<[k := W records]> results)
     else ret results)
    (fun out _ =>
       match out with
       | Returned r => G /\ step_result o c results r
       | Thrown _ => True
       end).
Proof.
  intros Hnorm -> st HG. unfold step_result.
  destruct (category_enabled o c).
  - unfold bind, lift, ret. destruct (m st) as [[payload|e] st']; simpl; [|exact I].
    destruct (f payload) as [records|e] eqn:Hf; simpl; [|exact I].
    split; [exact HG|]. exists payload, (W records). split; [|reflexivity].
    rewrite Hnorm, Hf. reflexivity.
  - simpl. split; [exact HG | reflexivity].
Qed.

(** The reports block never returns with the gate open. *)
Lemma reports_result (o : SyncOptions) (G : Prop) (results : gmap string result_value) :
  hoare (fun _ => G)
    (if syncReports o && given (startDate o) && given (endDate o) then
       let! plReport := call_api E "getProfitAndLossReport" [startDate o; endDate o] in
       let results := <["profitAndLoss" := Report (processReport plReport)]> results in
       let! bsReport := call_api E "getBalanceSheet" [endDate o] in
       let results := <["balanceSheet" := Report (processReport bsReport)]> results in
       let! cfReport := call_api E "getCashFlowStatement" [startDate o; endDate o] in
       let results := <["cashFlow" := Report (processReport cfReport)]> results in
       ret results
     else ret results)
    (fun out _ =>
       match out with
       | Returned r => G /\ r = results
       | Thrown _ => True
       end).
Proof.
  intros st HG. destruct (syncReports o && given (startDate o) && given (endDate o)).
  - unfold bind. destruct (call_api E "getProfitAndLossReport" _ st) as [[pl|e] st'];
      simpl; exact I.
  - simpl. split; [exact HG | reflexivity].
Qed.

(** What the mapping of a successful sync is made of. *)
Lemma syncData_results (o : SyncOptions) (st : world) (results : gmap string result_value) :
  fst (syncData E o st) = Returned (sync_success results) ->
  exists r1 r2 r3 r4,
    step_result o Accounts ∅ r1 /\ step_result o Customers r1 r2 /\
    step_result o Invoices r2 r3 /\ step_result o Bills r3 r4 /\
    step_result o Payments r4 results.
Proof.
  assert (H : hoare (fun _ => True) (syncData E o)
    (fun out _ => forall results, out = Returned (sync_success results) ->
       exists r1 r2 r3 r4,
         step_result o Accounts ∅ r1 /\ step_result o Customers r1 r2 /\
         step_result o Invoices r2 r3 /\ step_result o Bills r3 r4 /\
         step_result o Payments r4 results)).
  { unfold syncData.
    eapply hoare_try_catch with
      (Q1 := fun out _ =>
         match out with
         | Returned r => forall results, r = sync_success results ->
             exists r1 r2 r3 r4,
               step_result o Accounts ∅ r1 /\ step_result o Customers r1 r2 /\
               step_result o Invoices r2 r3 /\ step_result o Bills r3 r4 /\
               step_result o Payments r4 results
         | Thrown _ => True
         end).
    - eapply hoare_bind;
        [apply (result_step o _ Accounts AccountList processAccounts);
         [reflexivity | reflexivity] | | intros; exact I].
      intros r1.
      eapply hoare_bind;
        [apply (result_step o _ Customers CustomerList processCustomers);
         [reflexivity | reflexivity] | | intros; exact I].
      intros r2.
      eapply hoare_bind;
        [apply (result_step o _ Invoices InvoiceList processInvoices);
         [reflexivity | reflexivity] | | intros; exact I].
      intros r3.
      eapply hoare_bind;
        [apply (result_step o _ Bills BillList processBills);
         [reflexivity | reflexivity] | | intros; exact I].
      intros r4.
      eapply hoare_bind;
        [apply (result_step o _ Payments PaymentList processPayments);
         [reflexivity | reflexivity] | | intros; exact I].
      intros r5.
      eapply hoare_bind; [apply reports_result | | intros; exact I].
      intros r6 w HG. unfold bind, storeData, Date_now, localStorage_setItem, ret.
      cbn [fst snd]. intros res Hres. injection Hres as <-.
      destruct HG as [HG ->]. exists r1, r2, r3, r4. tauto.
    - intros a w H res Hres. injection Hres as ->. apply H. reflexivity.
    - intros e w _ res Hres. discriminate. }
  intros Hout. apply (H st I results Hout).
Qed.

(** X11. The data of a successful sync has exactly the keys of the enabled
    categories: each enabled category is there with what its normalization
    returned for some vendor payload, and every entry is of that kind; in
    particular no report is ever part of a successful result. *)
Theorem sync_success_keys (o : SyncOptions) (st : world)
        (results : gmap string result_value) :
  fst (syncData E o st) = Returned (sync_success results) ->
  (forall c, category_enabled o c = true -> is_Some (results !! category_key c)) /\
  (forall k v, results !! k = Some v ->
     exists c payload,
       category_enabled o c = true /\ k = category_key c /\
       normalize c payload = Returned v).
Proof.
  intros Hout.
  destruct (syncData_results o st results Hout)
    as (r1 & r2 & r3 & r4 & H1 & H2 & H3 & H4 & H5).
  unfold step_result in *.
  destruct (category_enabled o Accounts) eqn:Ea;
    [destruct H1 as (pa & va & Hna & ->) | subst r1];
  (destruct (category_enabled o Customers) eqn:Ec;
    [destruct H2 as (pc & vc & Hnc & ->) | subst r2]);
  (destruct (category_enabled o Invoices) eqn:Ei;
    [destruct H3 as (pi & vi & Hni & ->) | subst r3]);
  (destruct (category_enabled o Bills) eqn:Eb;
    [destruct H4 as (pb & vb & Hnb & ->) | subst r4]);
  (destruct (category_enabled o Payments) eqn:Ep;
    [destruct H5 as (pp & vp & Hnp & ->) | subst results]).
  all: split;
    [ intros c Hc; destruct c; try congruence; simpl;
      rewrite ?lookup_insert_ne by discriminate; rewrite lookup_insert_eq; eauto
    | intros k v Hk;
      repeat match goal with
      | H : <[ _ := _ ]> _ !! _ = Some _ |- _ =>
          apply lookup_insert_Some in H; destruct H as [[<- <-] | [_ H]]
      | H : ∅ !! _ = Some _ |- _ => rewrite lookup_empty in H; discriminate
      end;
      first [ exists Accounts; eexists; repeat split; eassumption
            | exists Customers; eexists; repeat split; eassumption
            | exists Invoices; eexists; repeat split; eassumption
            | exists Bills; eexists; repeat split; eassumption
            | exists Payments; eexists; repeat split; eassumption ] ].
Qed.

(** X10. [syncData] never throws.  Its result is the failure result, with
    the stored snapshot untouched, or a success whose data is exactly what
    [localStorage] then holds under "quickbooks_data", stamped with the
    instant of storing; the previous snapshot is replaced, not merged. *)
Theorem sync_always_returns (o : SyncOptions) (st : world) :
  let st' := snd (syncData E o st) in
  (fst (syncData E o st) = Returned sync_failure /\
   localStorage st' !! "quickbooks_data" = localStorage st !! "quickbooks_data") \/
  (exists results,
     fst (syncData E o st) = Returned (sync_success results) /\
     localStorage st' !! "quickbooks_data" = Some (StoredSync (clock st') results)).
Proof.
  cbv zeta.
  destruct (syncData_post E o st) as [[Hout Hinv] | (r & st1 & Hout & _ & Hst & _)].
  - left. split; [exact Hout | apply (inv_snapshot _ _ _ Hinv)].
  - right. exists r. split; [exact Hout|]. rewrite Hst. unfold snapshot_stored. simpl.
    apply lookup_insert_eq.
Qed.

(** X13. A sync with no category enabled and the reports block not running
    sends nothing and still succeeds: it returns empty data and replaces
    whatever snapshot was stored by an empty one. *)
Theorem sync_nothing_selected (o : SyncOptions) (st : world) :
  (forall c, category_enabled o c = false) -> reports_gate o = false ->
  syncData E o st = (Returned (sync_success ∅), snapshot_stored st ∅).
Proof.
  intros Hnone Hgate.
  pose proof (Hnone Accounts) as Ha. pose proof (Hnone Customers) as Hc.
  pose proof (Hnone Invoices) as Hi. pose proof (Hnone Bills) as Hb.
  pose proof (Hnone Payments) as Hp. simpl in Ha, Hc, Hi, Hb, Hp.
  unfold reports_gate in Hgate. unfold syncData.
  rewrite Ha, Hc, Hi, Hb, Hp, Hgate. reflexivity.
Qed.

(** X12. A sync stops at the first rejected request: whichever request of
    a sync the vendor rejects (a category query, the profit-and-loss report
    or a token refresh), it is the last request that sync sends. *)
Theorem sync_fails_fast (o : SyncOptions) (st : world)
        (h1 : list request) (r : request) (h2 : list request) :
  sent (snd (syncData E o st)) = sent st ++ h1 ++ r :: h2 ->
  rejected E (sent st ++ h1) r ->
  sent (snd (syncData E o st)) = sent st ++ h1 ++ [r].
Proof.
  intros Hsent Hrej. rewrite Hsent. do 3 f_equal.
  destruct (proj1 (syncData_trace E o st)) as (l & Hl & Hans).
  rewrite Hsent in Hl. apply app_inv_head in Hl. subst l.
  destruct h2 as [|x h2] using rev_ind; [reflexivity|]. exfalso.
  replace (h1 ++ r :: h2 ++ [x]) with ((h1 ++ r :: h2) ++ [x]) in Hans
    by (rewrite <- app_assoc; reflexivity).
  rewrite removelast_last in Hans.
  exact (resolved_not_rejected E _ _ (answered_middle E _ _ _ _ Hans) Hrej).
Qed.

End SyncFurther.

(** ** The OAuth callback and the OAuth state *)

Section CallbackFurther.

Context (E : env).

(** X14. The callback never looks at the value of [state]: two requests
    that differ only in their (non-empty) state get the same response and
    cause the same token request. *)
Theorem callback_ignores_state (code state1 state2 realmId : option string)
        (received : list request) :
  given state1 = true -> given state2 = true ->
  GET E code state1 realmId received = GET E code state2 realmId received.
Proof. intros H1 H2. unfold GET. rewrite H1, H2. reflexivity. Qed.

(** X15. The callback answers with a 400 exactly when [code], [state] or
    [realmId] is missing or empty, and then sends nothing; in every other
    case it sends exactly one request to the token endpoint, carrying the
    authorization code, the configured redirect URI and the client
    credentials. *)
Theorem callback_exchange_iff (code state realmId : option string)
        (received : list request) :
  let complete := given code && given state && given realmId in
  ((exists message, fst (GET E code state realmId received) = JsonResponse 400 message)
   <-> complete = false) /\
  snd (GET E code state realmId received) =
    if complete then
      received ++
      [HttpPost token_endpoint
                [("grant_type", "authorization_code"); ("code", text code);
                 ("redirect_uri", redirectUri (QB_CONFIG E))]
                (clientId (QB_CONFIG E)) (clientSecret (QB_CONFIG E))]
    else received.
Proof.
  cbv zeta. unfold GET.
  destruct (given code), (given state), (given realmId); simpl;
    try (split; [split; [reflexivity | eauto] | reflexivity]).
  destruct (vendor_post _ _ _ _ _ _); simpl;
    (split; [split; [intros [m H]; discriminate | discriminate] | reflexivity]).
Qed.

(** X16. With the three parameters present the callback never throws and
    its response follows the token endpoint: on success a redirect whose
    cookie "qb_auth_data" holds the tokens received and the request's
    realm, is HTTP-only, lives 2592000 seconds and is secure exactly in
    production; on failure a redirect carrying what the classifier makes of
    the error, without any cookie. *)
Theorem callback_outcome (code state realmId : option string) (received : list request) :
  given code = true -> given state = true -> given realmId = true ->
  fst (GET E code state realmId received) =
  match vendor_post E received token_endpoint
          [("grant_type", "authorization_code"); ("code", text code);
           ("redirect_uri", redirectUri (QB_CONFIG E))]
          (clientId (QB_CONFIG E)) (clientSecret (QB_CONFIG E)) with
  | Resolved tokens =>
      RedirectConnected
        {| cookie_name := "qb_auth_data";
           cookie_value := StoredAuth (access_token tokens) (refresh_token tokens)
                                      (expires_in tokens) (text realmId);
           httpOnly := true;
           secure := String.eqb (environment (QB_CONFIG E)) "production";
           maxAge := 2592000;
           cookie_path := "/" |}
  | Rejected e =>
      RedirectError (error_type (handleQuickBooksError E (Transport e)))
                    (error_message (handleQuickBooksError E (Transport e)))
  end.
Proof.
  intros Hc Hs Hr. unfold GET. rewrite Hc, Hs, Hr. simpl.
  destruct (vendor_post _ _ _ _ _ _); reflexivity.
Qed.

End CallbackFurther.

(** X17. The stored OAuth state verifies exactly the state that was stored
    last; once cleared, no state verifies; and storing or clearing it leaves
    every other key of the storage alone. *)
Theorem oauth_state_round_trip (s s' : string) (storage : gmap string string) :
  (verifyOAuthState s' (storeOAuthState s storage) = true <-> s' = s) /\
  verifyOAuthState s' (clearOAuthState (storeOAuthState s storage)) = false /\
  (forall k, k <> "qb_oauth_state" ->
     storeOAuthState s storage !! k = storage !! k /\
     clearOAuthState storage !! k = storage !! k).
Proof.
  unfold verifyOAuthState, storeOAuthState, clearOAuthState. repeat split.
  - rewrite lookup_insert_eq. apply String.eqb_eq.
  - intros ->. rewrite lookup_insert_eq. apply String.eqb_refl.
  - rewrite lookup_delete_eq. reflexivity.
  - rewrite lookup_insert_ne by congruence. reflexivity.
  - rewrite lookup_delete_ne by congruence. reflexivity.
Qed.

(** ** Runs of the further properties *)

Lemma normalize_ids_in_order_witness :
  exists v, normalize Accounts demo_accounts = Returned v /\
            record_ids v = [JStr "1"; JStr "2"].
Proof.
  eexists. split; [reflexivity|].
  exact (normalize_ids_in_order Accounts demo_accounts _ eq_refl).
Defined.

Lemma line_items_in_order_witness :
  exists r1 r2,
    processInvoices demo_invoices = Returned [r1; r2] /\
    map InvoiceLine.amount (Invoice.lineItems r1) = [JNum 60; JNum 40] /\
    Invoice.lineItems r2 = [].
Proof.
  do 2 eexists. split; [reflexivity|].
  pose proof (proj1 (line_items_in_order demo_invoices) _ eq_refl) as H.
  inversion H as [|? ? ? ? H1 _]; subst. split; [exact H1 | reflexivity].
Defined.

Lemma refresh_success_updates_bundle_witness :
  accessToken (this (snd (perform vendor_up OpAccounts (demo_world 1000000)))) = "access-2".
Proof.
  destruct (refresh_success_updates_bundle vendor_up OpAccounts (demo_world 1000000)
              demo_token) as [H _]; [simpl; lia | reflexivity | exact H].
Defined.

Lemma refresh_token_rotation_witness :
  let E := demo_env (fun _ => Resolved demo_accounts)
             (Resolved {| access_token := "access-2"; refresh_token := None;
                          expires_in := 3600 |}) in
  refreshToken (this (snd (perform E OpAccounts (demo_world 1000000)))) = "refresh-1".
Proof.
  intros E.
  destruct (refresh_token_rotation E OpAccounts (demo_world 1000000)
              {| access_token := "access-2"; refresh_token := None; expires_in := 3600 |})
    as [H _]; [simpl; lia | reflexivity |].
  apply H. left. reflexivity.
Defined.

Lemma refreshed_token_reused_witness :
  let st1 := snd (perform vendor_up OpAccounts (demo_world 1000000)) in
  sent (snd (perform vendor_up OpCustomers st1))
  = sent st1 ++ [HttpGet (operation_url OpCustomers (this st1)) "Bearer access-2"].
Proof.
  apply (refreshed_token_reused vendor_up OpAccounts OpCustomers (demo_world 1000000)
           demo_token); [simpl; lia | reflexivity | simpl; lia].
Defined.

Lemma fresh_client_first_call_witness :
  let st := mkWorld (new_QuickBooksAPI vendor_up "access-1" "refresh-1" "4620816365"
                                         (Some 0%Z) 5000) 5000 ∅ [] in
  sent (snd (perform vendor_up OpAccounts st)) = sent st ++ [own_request OpAccounts (this st)].
Proof.
  intros st.
  apply (proj2 (fresh_client_first_call vendor_up "access-1" "refresh-1" "4620816365"
                  (Some 0%Z) OpAccounts st eq_refl)).
  left. reflexivity.
Defined.

Lemma sync_success_keys_witness :
  exists results,
    fst (syncData vendor_up accounts_only (demo_world 9000000))
    = Returned (sync_success results) /\
    is_Some (results !! "accounts").
Proof.
  eexists. split; [reflexivity|].
  exact (proj1 (sync_success_keys vendor_up accounts_only (demo_world 9000000) _ eq_refl)
               Accounts eq_refl).
Defined.

Lemma sync_fails_fast_witness :
  sent (snd (syncData vendor_throttled everything_selected (demo_world 9000000)))
  = [] ++ [own_request OpAccounts (demo_api 9000000)]
       ++ [own_request OpCustomers (demo_api 9000000)].
Proof.
  apply (sync_fails_fast vendor_throttled everything_selected (demo_world 9000000)
           [own_request OpAccounts (demo_api 9000000)]
           (own_request OpCustomers (demo_api 9000000)) []).
  - reflexivity.
  - simpl. eexists. reflexivity.
Defined.

Lemma sync_nothing_selected_witness :
  syncData vendor_up nothing_selected (demo_world 9000000)
  = (Returned (sync_success ∅), snapshot_stored (demo_world 9000000) ∅).
Proof.
  apply (sync_nothing_selected vendor_up nothing_selected (demo_world 9000000)).
  - intros c. destruct c; reflexivity.
  - reflexivity.
Defined.

Lemma callback_ignores_state_witness :
  GET vendor_up (Some "auth-code") (Some "expected") (Some "4620816365") []
  = GET vendor_up (Some "auth-code") (Some "forged") (Some "4620816365") [].
Proof.
  apply (callback_ignores_state vendor_up (Some "auth-code") (Some "expected")
           (Some "forged") (Some "4620816365") []); reflexivity.
Defined.

Lemma callback_outcome_witness :
  fst (GET vendor_token_down (Some "auth-code") (Some "xyz") (Some "4620816365") [])
  = RedirectError Connection "ECONNREFUSED".
Proof.
  apply (callback_outcome vendor_token_down (Some "auth-code") (Some "xyz")
           (Some "4620816365") []); reflexivity.
Defined.

(** Payloads on which normalization throws, and one on which it does not. *)
Example normalize_returns_iff_runs :
  collection_ok Accounts (vendor_collection Accounts
    (JObj [("QueryResponse", JObj [("Account", JArr [JNull])])])) = false /\
  collection_ok Invoices (vendor_collection Invoices
    (JObj [("QueryResponse", JObj [("Invoice", JArr [JObj [("Line", JStr "x")]])])])) = false /\
  collection_ok Customers (vendor_collection Customers
    (JObj [("QueryResponse", JObj [("Customer", JArr [JObj [("Id", JStr "9")]])])])) = true /\
  (exists e, processAccounts
    (JObj [("QueryResponse", JObj [("Account", JArr [JNull])])]) = Thrown e).
Proof. repeat split. eexists. reflexivity. Qed.
